(** * cron-builder: the validator and the expression builder of
    [src/cron-builder.ts], embedded in Rocq.

    JavaScript strings are modelled as [string]s whose characters are code
    units below 256, numbers as [Z] with [None] standing for NaN, the
    [expression] object as a [gmap] from property names to array references,
    and arrays as cells of a store, because the builder keeps the arrays it
    is handed and updates them in place with [push].  Property lookups are
    own-property lookups: members inherited from [Object.prototype] are not
    part of the model. *)

From Stdlib Require Import ZArith Ascii String List Bool Lia.
From stdpp Require Import base option list strings gmap pretty.

Local Open Scope string_scope.
Local Open Scope Z_scope.

(** ** JavaScript string primitives *)

Module Js.

(** [s.split(sep)] for a one-character separator: never the empty list. *)
Fixpoint split (sep : ascii) (s : string) : list string :=
  match s with
  | EmptyString => [EmptyString]
  | String c s' =>
      if Ascii.eqb c sep then EmptyString :: split sep s'
      else match split sep s' with
           | h :: t => String c h :: t
           | [] => [String c EmptyString]
           end
  end.

(** [a.join(sep)] on an array of strings. *)
Definition join (sep : string) (a : list string) : string := String.concat sep a.

(** [s.indexOf(c)] for a one-character needle: [-1] when absent. *)
Fixpoint indexOf (s : string) (c : ascii) : Z :=
  match s with
  | EmptyString => -1
  | String d s' =>
      if Ascii.eqb d c then 0
      else let i := indexOf s' c in if i <? 0 then -1 else i + 1
  end.

Definition code (c : ascii) : N := N_of_ascii c.

(** The class [\s] (and the white space [parseInt] skips), below 256. *)
Definition isWhiteSpace (c : ascii) : bool :=
  existsb (N.eqb (code c)) [9; 10; 11; 12; 13; 32; 160]%N.

Definition isDigit (c : ascii) : bool :=
  (48 <=? code c)%N && (code c <=? 57)%N.

(** The value of [c] as a digit in some radix up to 36. *)
Definition digitValue (c : ascii) : option Z :=
  let n := code c in
  if (48 <=? n)%N && (n <=? 57)%N then Some (Z.of_N n - 48)
  else if (97 <=? n)%N && (n <=? 122)%N then Some (Z.of_N n - 87)
  else if (65 <=? n)%N && (n <=? 90)%N then Some (Z.of_N n - 55)
  else None.

Fixpoint trimStart (s : string) : string :=
  match s with
  | String c s' => if isWhiteSpace c then trimStart s' else s
  | EmptyString => EmptyString
  end.

(** The longest prefix of digits of [radix], accumulated from the left;
    [acc] is [None] as long as no digit has been read. *)
Fixpoint parseDigits (radix : Z) (s : string) (acc : option Z) : option Z :=
  match s with
  | String c s' =>
      match digitValue c with
      | Some d =>
          if d <? radix then parseDigits radix s' (Some (default 0 acc * radix + d))
          else acc
      | None => acc
      end
  | EmptyString => acc
  end.

(** [parseInt(s)] with no radix argument; [None] is NaN.  The result is the
    exact integer: the callers only compare it with bounds below 60, which
    the rounding to a double does not affect. *)
Definition parseInt (s : string) : option Z :=
  let s1 := trimStart s in
  let '(sign, s2) :=
    match s1 with
    | String "-" r => (-1, r)
    | String "+" r => (1, r)
    | _ => (1, s1)
    end in
  let '(radix, s3) :=
    match s2 with
    | String "0" (String "x" r) => (16, r)
    | String "0" (String "X" r) => (16, r)
    | _ => (10, s2)
    end in
  Z.mul sign <$> parseDigits radix s3 None.

(** [x < y] and [x > y] where [x] may be NaN: false on NaN. *)
Definition lt (x : option Z) (y : Z) : bool :=
  match x with Some n => n <? y | None => false end.
Definition gt (x : option Z) (y : Z) : bool :=
  match x with Some n => y <? n | None => false end.

(** [String(n)] for an integer [n]. *)
Definition ofNumber (n : Z) : string := pretty n.

(** [s] between two double-quote characters, as the messages have it. *)
Definition quoted (s : string) : string :=
  String (ascii_of_nat 34) (s ++ String (ascii_of_nat 34) EmptyString).

End Js.

(** ** Outcomes *)

(** The error kinds of the specification; the code throws [Error] objects
    that differ by their message only.  [TypeError] and [RangeError] are the
    engine's own: a property read on [undefined], and an exhausted call
    stack.  [BadReference] is no JavaScript outcome: it marks an array
    reference outside the store, which no well-formed state has. *)
Inductive ErrorKind :=
  | InvalidField | TooManyFields | InvalidCharacter | OutOfRange
  | InvalidValueType | TypeError | RangeError | BadReference.

Record exn := Exn { kind : ErrorKind; message : string }.

Inductive result (A : Type) :=
  | Ok (a : A)
  | Throw (e : exn).
Arguments Ok {A} a.
Arguments Throw {A} e.

Definition fails_with {A} (k : ErrorKind) (r : result A) : Prop :=
  match r with Ok _ => False | Throw e => kind e = k end.

(** [a.forEach(f)] where [f] may throw: the first exception ends the loop. *)
Fixpoint forEach {A} (a : list A) (f : A -> result unit) : result unit :=
  match a with
  | [] => Ok tt
  | x :: a' => match f x with Ok _ => forEach a' f | Throw e => Throw e end
  end.

(** ** CronValidator *)

Module CronValidator.

Definition MeasureOfTimeMap (i : nat) : option string :=
  match i with
  | 0%nat => Some "minute"
  | 1%nat => Some "hour"
  | 2%nat => Some "dayOfTheMonth"
  | 3%nat => Some "month"
  | 4%nat => Some "dayOfTheWeek"
  | _ => None
  end.

(** [Object.keys(MeasureOfTimeMap).map(key => MeasureOfTimeMap[key])] *)
Definition MeasureOfTimeValues : list string :=
  omap MeasureOfTimeMap (seq 0 5).

Record range := Range { min : Z; max : Z }.

Definition validatorObj (measureOfTime : string) : option range :=
  if String.eqb measureOfTime "minute" then Some (Range 0 59)
  else if String.eqb measureOfTime "hour" then Some (Range 0 23)
  else if String.eqb measureOfTime "dayOfTheMonth" then Some (Range 0 30)
  else if String.eqb measureOfTime "month" then Some (Range 1 12)
  else if String.eqb measureOfTime "dayOfTheWeek" then Some (Range 0 6)
  else None.

(** [/[^0-9\*\,\s]/.test(value)] *)
Definition validChars_test (value : string) : bool :=
  existsb (fun c => negb (Js.isDigit c || Ascii.eqb c "*" || Ascii.eqb c ","
                          || Js.isWhiteSpace c))
          (list_ascii_of_string value).

Definition invalidMeasureOfTime : exn :=
  Exn InvalidField
      ("Invalid measureOfTime; Valid options are: " ++ Js.join ", " MeasureOfTimeValues).

Definition invalidChars : exn :=
  Exn InvalidCharacter
      ("Invalid value; Only numbers 0-9, and " ++ Js.quoted "*" ++ " chars are allowed").

Definition belowMinimum (measureOfTime : string) (r : range) : exn :=
  Exn OutOfRange
      ("Invalid value; given value is not valid for " ++ Js.quoted measureOfTime
       ++ ". Minimum value is " ++ Js.quoted (Js.ofNumber (min r)) ++ ".").

Definition aboveMaximum (measureOfTime : string) (r : range) : exn :=
  Exn OutOfRange
      ("Invalid value; given value is not valid for " ++ Js.quoted measureOfTime
       ++ ". Maximum value is " ++ Js.quoted (Js.ofNumber (max r)) ++ ".").

Definition tooManyValues : exn :=
  Exn TooManyFields "Invalid cron expression; limited to 5 values.".

(** The body of [validateValue], with [self] for the recursive call. *)
Definition validateValue_body (self : string -> string -> result unit)
    (measureOfTime value : string) : result unit :=
  match validatorObj measureOfTime with
  | None => Throw invalidMeasureOfTime
  | Some r =>
      if validChars_test value then Throw invalidChars
      else if negb (String.eqb value "*") then
        if 0 <=? Js.indexOf value "," then
          forEach (Js.split "," value) (fun e => self measureOfTime e)
        else if Js.lt (Js.parseInt value) (min r) then
          Throw (belowMinimum measureOfTime r)
        else if Js.gt (Js.parseInt value) (max r) then
          Throw (aboveMaximum measureOfTime r)
        else Ok tt
      else Ok tt
  end.

(** [depth] bounds the nesting of calls; running out of it is the engine's
    [RangeError]. *)
Fixpoint validateValue_depth (depth : nat) (measureOfTime value : string)
    : result unit :=
  match depth with
  | O => Throw (Exn RangeError "Maximum call stack size exceeded")
  | S d => validateValue_body (validateValue_depth d) measureOfTime value
  end.

Definition validateValue (measureOfTime value : string) : result unit :=
  validateValue_depth (S (String.length value)) measureOfTime value.

(** [validateValue] reached with an array of strings [d] as [value] (the
    builder can hold [DEFAULT_INTERVAL] as an element): the regular
    expression and [parseInt] see [d.toString()], [!==] tells an array from
    a string, [indexOf] is the array's, and an array has no [split]. *)
Definition validateValue_array (measureOfTime : string) (d : list string)
    : result unit :=
  match validatorObj measureOfTime with
  | None => Throw invalidMeasureOfTime
  | Some r =>
      if validChars_test (Js.join "," d) then Throw invalidChars
      else if existsb (String.eqb ",") d then
        Throw (Exn TypeError "value.split is not a function")
      else if Js.lt (Js.parseInt (Js.join "," d)) (min r) then
        Throw (belowMinimum measureOfTime r)
      else if Js.gt (Js.parseInt (Js.join "," d)) (max r) then
        Throw (aboveMaximum measureOfTime r)
      else Ok tt
  end.

(** [expression] is an object whose values are strings, given by its
    properties in enumeration order. *)
Definition validateExpression (expression : list (string * string))
    : result unit :=
  if (5 <? length expression)%nat then Throw tooManyValues
  else forEach expression (fun '(measureOfTime, value) =>
         validateValue measureOfTime value).

(** The class has no static member [splitExpression]: reading it gives
    [undefined]. *)
Definition CronValidator_splitExpression : option (list string) := None.

(** [o[i]] converted to a string where one is expected. *)
Definition orUndefined (o : option string) : string := default "undefined" o.

Definition validateString (expression : string) : result unit :=
  let splitExpression := Js.split " " expression in
  if (5 <? length splitExpression)%nat then Throw tooManyValues
  else forEach (seq 0 (length splitExpression)) (fun i =>
         match CronValidator_splitExpression with
         | None =>
             Throw (Exn TypeError "Cannot read properties of undefined")
         | Some a =>
             validateValue (orUndefined (MeasureOfTimeMap i)) (orUndefined (a !! i))
         end).

End CronValidator.

(** ** The store of arrays *)

Abbreviation ref := nat.

(** An element of a field's array: a string, or the [DEFAULT_INTERVAL]
    array itself, which [set] wraps in a new array. *)
Inductive elem :=
  | EStr (s : string)
  | EDefaultInterval.

(** What [set] can be given as [value]: an array, by reference, or
    anything else. *)
Inductive jsval :=
  | VArray (r : ref)
  | VOther.

Record state := State {
  store : list (list elem);
  expression : gmap string ref
}.

(** [DEFAULT_INTERVAL] is the first array of the module. *)
Definition DEFAULT_INTERVAL : ref := 0%nat.
Definition module_store : list (list elem) := [[EStr "*"]].

(** The strings of an array nested in another; an array met inside itself
    prints as the empty string. *)
Definition inner_strings (a : list elem) : list string :=
  map (fun e => match e with EStr s => s | EDefaultInterval => EmptyString end) a.

Definition elem_toString (st : list (list elem)) (e : elem) : string :=
  match e with
  | EStr s => s
  | EDefaultInterval =>
      Js.join "," (inner_strings (default [] (st !! DEFAULT_INTERVAL)))
  end.

(** [a.join(',')] *)
Definition array_join (st : list (list elem)) (a : list elem) : string :=
  Js.join "," (map (elem_toString st) a).

(** [e === s] for an element and a string. *)
Definition elem_is (s : string) (e : elem) : bool :=
  match e with EStr s' => String.eqb s' s | EDefaultInterval => false end.

(** [a.indexOf(s)] *)
Fixpoint array_indexOf (a : list elem) (s : string) : Z :=
  match a with
  | [] => -1
  | e :: a' =>
      if elem_is s e then 0
      else let i := array_indexOf a' s in if i <? 0 then -1 else i + 1
  end.

(** ** Methods run on the state and may throw; a throw keeps the writes
    made before it. *)

Definition M (A : Type) : Type := state -> result A * state.

#[export] Instance M_ret : MRet M := fun A a s => (Ok a, s).
#[export] Instance M_bind : MBind M := fun A B f m s =>
  match m s with
  | (Ok a, s') => f a s'
  | (Throw e, s') => (Throw e, s')
  end.

Definition throw {A} (e : exn) : M A := fun s => (Throw e, s).
Definition lift {A} (r : result A) : M A := fun s => (r, s).

Fixpoint forEachM {A} (a : list A) (f : A -> M unit) : M unit :=
  match a with
  | [] => mret tt
  | x :: a' => f x;; forEachM a' f
  end.

Definition badReference : exn := Exn BadReference "no such array".

Definition new_array (a : list elem) : M ref := fun s =>
  (Ok (length (store s)), State (store s ++ [a])%list (expression s)).

Definition read (r : ref) : M (list elem) := fun s =>
  match store s !! r with
  | Some a => (Ok a, s)
  | None => (Throw badReference, s)
  end.

(** [r.push(e)] *)
Definition push (r : ref) (e : elem) : M unit := fun s =>
  match store s !! r with
  | Some a => (Ok tt, State (<[r := (a ++ [e])%list]> (store s)) (expression s))
  | None => (Throw badReference, s)
  end.

Definition get_store : M (list (list elem)) := fun s => (Ok (store s), s).

(** [a.length === 1 && a[0] === '*'] *)
Definition isDefault (a : list elem) : bool :=
  (length a =? 1)%nat && match a !! 0%nat with Some e => elem_is "*" e | None => false end.

(** ** CronBuilder *)

Module CronBuilder.
Import CronValidator.

(** [this.expression[measureOfTime]] *)
Definition this_expression (measureOfTime : string) : M (option ref) :=
  fun s => (Ok (expression s !! measureOfTime), s).

(** [this.expression[measureOfTime] = r] *)
Definition assign (measureOfTime : string) (r : ref) : M unit := fun s =>
  (Ok tt, State (store s) (<[measureOfTime := r]> (expression s))).

(** The array of a field, for a read of one of its properties: a
    [TypeError] when the field is [undefined]. *)
Definition field (measureOfTime : string) : M (ref * list elem) :=
  o ← this_expression measureOfTime;
  match o with
  | None => throw (Exn TypeError "Cannot read properties of undefined")
  | Some r => a ← read r; mret (r, a)
  end.

(** [splitExpression[i] ? splitExpression[i].split(',') : DEFAULT_INTERVAL] *)
Definition initialField (splitExpression : list string) (i : nat) : M ref :=
  match splitExpression !! i with
  | Some (String c p) => new_array (EStr <$> Js.split "," (String c p))
  | _ => mret DEFAULT_INTERVAL
  end.

(** [this.expression = o] *)
Definition set_expression (o : gmap string ref) : M unit := fun s =>
  (Ok tt, State (store s) o).

Definition constructor (initialExpression : option string) : M unit :=
  match initialExpression with
  | Some (String c e) =>
      let initialExpression := String c e in
      lift (validateString initialExpression);;
      let splitExpression := Js.split " " initialExpression in
      minute ← initialField splitExpression 0;
      hour ← initialField splitExpression 1;
      dayOfTheMonth ← initialField splitExpression 2;
      month ← initialField splitExpression 3;
      dayOfTheWeek ← initialField splitExpression 4;
      set_expression
        {[ "minute" := minute; "hour" := hour; "dayOfTheMonth" := dayOfTheMonth;
           "month" := month; "dayOfTheWeek" := dayOfTheWeek ]}
  | _ =>
      set_expression
        {[ "minute" := DEFAULT_INTERVAL; "hour" := DEFAULT_INTERVAL;
           "dayOfTheMonth" := DEFAULT_INTERVAL; "month" := DEFAULT_INTERVAL;
           "dayOfTheWeek" := DEFAULT_INTERVAL ]}
  end.

(** The module once loaded, before any builder exists. *)
Definition module_state : state := State module_store ∅.

(** [new CronBuilder(initialExpression)] *)
Definition new (initialExpression : option string) : result unit * state :=
  constructor initialExpression module_state.

(** [this.expression.f.join(',')] *)
Definition field_join (measureOfTime : string) : M string :=
  '(_, a) ← field measureOfTime;
  st ← get_store;
  mret (array_join st a).

Definition build : M string :=
  minute ← field_join "minute";
  hour ← field_join "hour";
  dayOfTheMonth ← field_join "dayOfTheMonth";
  month ← field_join "month";
  dayOfTheWeek ← field_join "dayOfTheWeek";
  mret (Js.join " " [minute; hour; dayOfTheMonth; month; dayOfTheWeek]).

Definition addValue (measureOfTime value : string) : M unit :=
  lift (validateValue measureOfTime value);;
  '(_, a) ← field measureOfTime;
  if isDefault a then
    r ← new_array [EStr value];
    assign measureOfTime r
  else
    let splittedValues := Js.split "," value in
    forEachM splittedValues (fun e =>
      '(r, a) ← field measureOfTime;
      if array_indexOf a e <? 0 then push r (EStr value) else mret tt).

Definition unknownMeasureOfTime : exn :=
  Exn InvalidField
      ("Invalid measureOfTime: Valid options are: " ++ Js.join ", " MeasureOfTimeValues).

Definition noOp (measureOfTime : string) : string :=
  "The value for " ++ Js.quoted measureOfTime
  ++ " is already at the default value of " ++ Js.quoted "*"
  ++ " - this is a no-op.".

(** [Some] message for the no-op return, [None] for [undefined]. *)
Definition removeValue (measureOfTime value : string) : M (option string) :=
  o ← this_expression measureOfTime;
  match o with
  | None => throw unknownMeasureOfTime
  | Some r =>
      a ← read r;
      if isDefault a then mret (Some (noOp measureOfTime))
      else
        r' ← new_array (List.filter (fun timeValue => negb (elem_is value timeValue)) a);
        assign measureOfTime r';;
        '(_, a') ← field measureOfTime;
        (if (length a' =? 0)%nat then assign measureOfTime DEFAULT_INTERVAL
         else mret tt);;
        mret None
  end.

Definition get (measureOfTime : string) : M string :=
  o ← this_expression measureOfTime;
  match o with
  | None => throw unknownMeasureOfTime
  | Some r => a ← read r; st ← get_store; mret (array_join st a)
  end.

(** [validateValue(measureOfTime, value[i])] for an element of an array. *)
Definition validateElem (st : list (list elem)) (measureOfTime : string)
    (e : elem) : result unit :=
  match e with
  | EStr s => validateValue measureOfTime s
  | EDefaultInterval =>
      validateValue_array measureOfTime
        (inner_strings (default [] (st !! DEFAULT_INTERVAL)))
  end.

Definition invalidValueType : exn :=
  Exn InvalidValueType "Invalid value; Value must be in the form of an Array.".

Definition set (measureOfTime : string) (value : jsval) : M string :=
  match value with
  | VOther => throw invalidValueType
  | VArray v =>
      a ← read v;
      if (length a =? 0)%nat then
        r ← new_array [EDefaultInterval];
        assign measureOfTime r
      else
        st ← get_store;
        lift (forEach a (validateElem st measureOfTime));;
        assign measureOfTime v
  end;;
  field_join measureOfTime.

Definition getAll : M (gmap string ref) := fun s => (Ok (expression s), s).

(** [expToSet] is an object, given by its properties in enumeration
    order. *)
Fixpoint joinAll (expToSet : list (string * jsval)) : M (list (string * string)) :=
  match expToSet with
  | [] => mret []
  | (e, v) :: rest =>
      joined ← match v with
               | VArray r => a ← read r; st ← get_store; mret (array_join st a)
               | VOther => throw (Exn TypeError "expToSet[e].join is not a function")
               end;
      testExp ← joinAll rest;
      mret ((e, joined) :: testExp)
  end.

Definition setAll (expToSet : list (string * jsval)) : M unit :=
  testExp ← joinAll expToSet;
  lift (validateExpression testExp);;
  forEachM expToSet (fun '(e, v) => set e v;; mret tt).

End CronBuilder.

(** ** The methods as functions of what they read *)

(** What [validateValue] asks of a part that has no comma and no forbidden
    character. *)
Definition checkToken (measureOfTime : string) (r : CronValidator.range)
    (e : string) : result unit :=
  if String.eqb e "*" then Ok tt
  else if Js.lt (Js.parseInt e) (CronValidator.min r) then
    Throw (CronValidator.belowMinimum measureOfTime r)
  else if Js.gt (Js.parseInt e) (CronValidator.max r) then
    Throw (CronValidator.aboveMaximum measureOfTime r)
  else Ok tt.

(** One turn of the loop of [addValue] on the array [a]: the part [e] is
    looked up, the whole [value] is pushed. *)
Definition pushIfAbsent (value : string) (a : list elem) (e : string) : list elem :=
  if array_indexOf a e <? 0 then (a ++ [EStr value])%list else a.

(** The array of a field that is not at the default after [addValue]. *)
Definition added (value : string) (a : list elem) : list elem :=
  fold_left (pushIfAbsent value) (Js.split "," value) a.

(** The array [removeValue] builds. *)
Definition removed (value : string) (a : list elem) : list elem :=
  List.filter (fun timeValue => negb (elem_is value timeValue)) a.

(** Whether a call returned. *)
Definition succeeds {A} (r : result A) : bool :=
  match r with Ok _ => true | Throw _ => false end.

(** The arrays of [s] are still in [s'], with the same elements. *)
Definition extends (s s' : state) : Prop :=
  forall r a, store s !! r = Some a -> store s' !! r = Some a.

(** ** Observations and runs *)

(** The token list a field holds. *)
Definition tokens (s : state) (measureOfTime : string) : option (list elem) :=
  r ← expression s !! measureOfTime; store s !! r.

(** What a caller can do between construction and now: build an array of
    strings of its own, or call a method.  Calls that throw are part of a
    run: the caller may catch the exception and go on. *)
Inductive op :=
  | ONewArray (a : list string)
  | OAddValue (measureOfTime value : string)
  | ORemoveValue (measureOfTime value : string)
  | OGet (measureOfTime : string)
  | OBuild
  | OGetAll
  | OSet (measureOfTime : string) (value : jsval)
  | OSetAll (expToSet : list (string * jsval)).

Definition exec (o : op) (s : state) : state :=
  match o with
  | ONewArray a => snd (new_array (EStr <$> a) s)
  | OAddValue f v => snd (CronBuilder.addValue f v s)
  | ORemoveValue f v => snd (CronBuilder.removeValue f v s)
  | OGet f => snd (CronBuilder.get f s)
  | OBuild => snd (CronBuilder.build s)
  | OGetAll => snd (CronBuilder.getAll s)
  | OSet f v => snd (CronBuilder.set f v s)
  | OSetAll e => snd (CronBuilder.setAll e s)
  end.

(** The states of a builder after a successful construction and any number
    of steps, each permitted by [allowed] in the state it starts from. *)
Inductive reachable (allowed : state -> op -> Prop) : state -> Prop :=
  | reach_new initialExpression s :
      CronBuilder.new initialExpression = (Ok tt, s) -> reachable allowed s
  | reach_step s o :
      reachable allowed s -> allowed s o -> reachable allowed (exec o s).

Definition any_op (s : state) (o : op) : Prop := True.






(** What [set] leaves in a field when given the array [a]. *)
Definition assigned (a : list elem) : list elem :=
  match a with [] => [EDefaultInterval] | _ => a end.

(** What [set] would assign for [v] satisfies [G]. *)
Definition accepts (G : list elem -> Prop) (s : state) (v : jsval) : Prop :=
  match v with
  | VArray r => forall a, store s !! r = Some a -> G (assigned a)
  | VOther => True
  end.

(** The steps after which every field still holds an array that satisfies
    [G], provided [G] holds of one-token arrays and survives [removeValue]:
    what [addValue] pushes and what [set] assigns must satisfy [G]. *)
Definition permits (G : list elem -> Prop) (s : state) (o : op) : Prop :=
  match o with
  | OAddValue _ v => forall a, G a -> isDefault a = false -> G (added v a)
  | OSet _ v => accepts G s v
  | OSetAll e => Forall (fun fv => accepts G s fv.2) e
  | _ => True
  end.

(** The body of the second loop of [setAll]. *)
Definition setEach (expToSet : list (string * jsval)) : M unit :=
  forEachM expToSet (fun '(e, v) => CronBuilder.set e v;; mret tt).

(** Every field refers to an array of the store that satisfies [G]. *)
Definition fields_hold (G : list elem -> Prop) (s : state) : Prop :=
  forall f r, expression s !! f = Some r ->
    exists a, store s !! r = Some a /\ G a.

(** [DEFAULT_INTERVAL] still holds the wildcard alone. *)
Definition default_intact (s : state) : Prop :=
  store s !! DEFAULT_INTERVAL = Some [EStr "*"].

(** ** Further notions for the properties of the methods *)

(** [n] is NaN or lies within [r]. *)
Definition within (r : CronValidator.range) (n : option Z) : Prop :=
  match n with
  | Some z => CronValidator.min r <= z <= CronValidator.max r
  | None => True
  end.

(** The five fields are properties of the expression. *)
Definition has_fields (s : state) : Prop :=
  Forall (fun f => is_Some (expression s !! f)) CronValidator.MeasureOfTimeValues.

(** The state a successful construction leaves. *)
Definition default_state : state :=
  State module_store
    {[ "minute" := DEFAULT_INTERVAL; "hour" := DEFAULT_INTERVAL;
       "dayOfTheMonth" := DEFAULT_INTERVAL; "month" := DEFAULT_INTERVAL;
       "dayOfTheWeek" := DEFAULT_INTERVAL ]}.

(** * Facts about the validator *)

Section ValidatorFacts.
Import CronValidator.

Lemma split_nonempty sep s : Js.split sep s <> [].
Proof.
  destruct s as [|c s]; simpl; [discriminate|].
  destruct (Ascii.eqb c sep); [discriminate|].
  destruct (Js.split sep s); discriminate.
Qed.

Lemma split_app sep a b :
  Js.split sep (a ++ String sep b) = (Js.split sep a ++ Js.split sep b)%list.
Proof.
  induction a as [|c a IH]; simpl.
  - rewrite Ascii.eqb_refl. reflexivity.
  - destruct (Ascii.eqb c sep); [now rewrite IH|].
    rewrite IH. destruct (Js.split sep a) eqn:E; [|reflexivity].
    now apply split_nonempty in E.
Qed.

Lemma indexOf_ge s c : -1 <= Js.indexOf s c.
Proof.
  induction s as [|d s IH]; simpl; [lia|].
  destruct (Ascii.eqb d c); [lia|].
  destruct (Z.ltb_spec (Js.indexOf s c) 0); lia.
Qed.

Lemma split_parts sep s :
  Forall (fun e => Js.indexOf e sep < 0) (Js.split sep s).
Proof.
  induction s as [|c s IH]; simpl.
  - repeat constructor.
  - destruct (Ascii.eqb c sep) eqn:E.
    + constructor; [simpl; lia | exact IH].
    + destruct (Js.split sep s) as [|h t]; inversion IH; subst.
      * repeat constructor. simpl. rewrite E. simpl. lia.
      * constructor; [|assumption]. simpl. rewrite E.
        destruct (Z.ltb_spec (Js.indexOf h sep) 0); lia.
Qed.

Lemma split_whole sep s : Js.indexOf s sep < 0 -> Js.split sep s = [s].
Proof.
  induction s as [|c s IH]; simpl; [reflexivity|].
  pose proof (indexOf_ge s sep).
  destruct (Ascii.eqb c sep); [lia|].
  destruct (Z.ltb_spec (Js.indexOf s sep) 0); [|lia].
  intros _. now rewrite IH.
Qed.

Lemma validChars_parts sep s :
  validChars_test s = false ->
  Forall (fun e => validChars_test e = false) (Js.split sep s).
Proof.
  unfold validChars_test.
  induction s as [|c s IH]; simpl; [repeat constructor|].
  intros [Hc Hs]%orb_false_elim. specialize (IH Hs).
  destruct (Ascii.eqb c sep); [constructor; [reflexivity|exact IH]|].
  destruct (Js.split sep s) as [|h t]; inversion IH; subst.
  - repeat constructor. simpl. now rewrite Hc.
  - constructor; [|assumption]. simpl. rewrite Hc. assumption.
Qed.

Lemma forEach_ext {A} (f g : A -> result unit) a :
  Forall (fun x => f x = g x) a -> forEach a f = forEach a g.
Proof.
  induction 1 as [|x a Hx _ IH]; simpl; [reflexivity|].
  rewrite Hx, IH. reflexivity.
Qed.


Lemma forEach_Ok {A} (f : A -> result unit) a :
  forEach a f = Ok tt <-> Forall (fun x => f x = Ok tt) a.
Proof.
  induction a as [|x a IH]; simpl.
  - split; [constructor | reflexivity].
  - destruct (f x) as [[]|e] eqn:E.
    + rewrite IH. split; [now constructor | now inversion 1].
    + split; [discriminate | inversion 1; congruence].
Qed.

Lemma validatorObj_Some f r :
  validatorObj f = Some r ->
  In (f, r) [("minute", Range 0 59); ("hour", Range 0 23);
             ("dayOfTheMonth", Range 0 30); ("month", Range 1 12);
             ("dayOfTheWeek", Range 0 6)].
Proof.
  unfold validatorObj.
  repeat match goal with
         | |- context [String.eqb f ?x] =>
             destruct (String.eqb_spec f x) as [->|_];
             [intros [= <-]; simpl; auto 8|]
         end.
  discriminate.
Qed.

Lemma body_token self f r e :
  validatorObj f = Some r -> validChars_test e = false ->
  Js.indexOf e "," < 0 ->
  validateValue_body self f e = checkToken f r e.
Proof.
  intros Hf Hc Hi. unfold validateValue_body, checkToken.
  rewrite Hf, Hc. destruct (String.eqb e "*"); simpl; [reflexivity|].
  destruct (Z.leb_spec 0 (Js.indexOf e ",")); [lia | reflexivity].
Qed.

Lemma validateValue_depth_split n f r v :
  validatorObj f = Some r ->
  validateValue_depth (S (S n)) f v =
    if validChars_test v then Throw invalidChars
    else forEach (Js.split "," v) (checkToken f r).
Proof.
  intros Hf. cbn [validateValue_depth]. unfold validateValue_body at 1.
  rewrite Hf. destruct (validChars_test v) eqn:Hc; [reflexivity|].
  destruct (String.eqb_spec v "*") as [->|Hv]; simpl; [reflexivity|].
  destruct (Z.leb_spec 0 (Js.indexOf v ",")) as [Hi|Hi].
  - apply forEach_ext.
    pose proof (split_parts "," v) as Hp.
    pose proof (validChars_parts "," v Hc) as Hq.
    rewrite Forall_forall in *. intros e He.
    apply body_token; auto.
  - rewrite split_whole by assumption. simpl.
    unfold checkToken. destruct (String.eqb_spec v "*"); [contradiction|].
    repeat match goal with |- context [if ?b then _ else _] => destruct b end;
      reflexivity.
Qed.

Lemma validateValue_split f r v :
  validatorObj f = Some r ->
  validateValue f v =
    if validChars_test v then Throw invalidChars
    else forEach (Js.split "," v) (checkToken f r).
Proof.
  intros Hf. unfold validateValue. destruct v as [|c v].
  - simpl. unfold validateValue_body. rewrite Hf. reflexivity.
  - now apply validateValue_depth_split.
Qed.

Lemma checkToken_kind f r e x :
  checkToken f r e = Throw x -> kind x = OutOfRange.
Proof.
  unfold checkToken.
  repeat match goal with |- context [if ?b then _ else _] => destruct b end;
    intros [= <-]; reflexivity.
Qed.

Lemma forEach_Throw {A} (g : A -> result unit) a x :
  forEach a g = Throw x -> exists y, In y a /\ g y = Throw x.
Proof.
  induction a as [|y a IH]; simpl; [discriminate|].
  destruct (g y) eqn:Hy.
  - intros (z & Hz & Hg)%IH. eauto.
  - intros [= <-]. eauto.
Qed.

Lemma validateValue_unknown f v :
  validatorObj f = None -> validateValue f v = Throw invalidMeasureOfTime.
Proof.
  intros Hf. unfold validateValue. simpl. unfold validateValue_body.
  now rewrite Hf.
Qed.

(** [validateValue] returns, or throws one of its three exceptions: the
    depth it is run with is never exhausted. *)
Lemma validateValue_kinds f v x :
  validateValue f v = Throw x ->
  kind x = InvalidField \/ kind x = InvalidCharacter \/ kind x = OutOfRange.
Proof.
  destruct (validatorObj f) as [r|] eqn:Hf.
  - rewrite (validateValue_split f r v Hf).
    destruct (validChars_test v); [intros [= <-]; auto|].
    intros (e & _ & He)%forEach_Throw. apply checkToken_kind in He. auto.
  - rewrite (validateValue_unknown f v Hf). intros [= <-]. auto.
Qed.

Lemma validateValue_returns f v : ~ fails_with RangeError (validateValue f v).
Proof.
  destruct (validateValue f v) as [|x] eqn:Hv; simpl; [auto|].
  apply validateValue_kinds in Hv. intros Hk. rewrite Hk in Hv.
  destruct Hv as [|[|]]; discriminate.
Qed.

End ValidatorFacts.

Ltac munfold :=
  unfold CronBuilder.field_join, CronBuilder.field,
    CronBuilder.this_expression, CronBuilder.assign, new_array, read, push,
    get_store, throw, lift, mbind, M_bind, mret, M_ret, option_bind in *;
  cbn beta iota delta [fst snd store expression] in *.

(** * The methods, step by step *)

Section BuilderRuns.
Import CronValidator CronBuilder.

Lemma state_eta s : State (store s) (expression s) = s.
Proof. now destruct s. Qed.

Lemma field_run f s :
  field f s =
    match expression s !! f with
    | None => (Throw (Exn TypeError "Cannot read properties of undefined"), s)
    | Some r =>
        match store s !! r with
        | Some a => (Ok (r, a), s)
        | None => (Throw badReference, s)
        end
    end.
Proof.
  munfold. destruct (expression s !! f) as [r|]; [|reflexivity].
  destruct (store s !! r); reflexivity.
Qed.

Lemma field_join_run f s :
  field_join f s =
    match tokens s f with
    | Some a => (Ok (array_join (store s) a), s)
    | None =>
        (Throw (match expression s !! f with
                | Some _ => badReference
                | None => Exn TypeError "Cannot read properties of undefined"
                end), s)
    end.
Proof.
  unfold tokens. munfold. destruct (expression s !! f) as [r|]; simpl; [|reflexivity].
  destruct (store s !! r); reflexivity.
Qed.

Lemma get_run f s :
  get f s =
    match expression s !! f with
    | None => (Throw unknownMeasureOfTime, s)
    | Some r =>
        match store s !! r with
        | Some a => (Ok (array_join (store s) a), s)
        | None => (Throw badReference, s)
        end
    end.
Proof.
  unfold get. munfold. destruct (expression s !! f) as [r|]; [|reflexivity].
  destruct (store s !! r); reflexivity.
Qed.

Lemma addValue_loop f value parts : forall s r a,
  expression s !! f = Some r -> store s !! r = Some a ->
  forEachM parts (fun e =>
      '(r, a) ← field f;
      if array_indexOf a e <? 0 then push r (EStr value) else mret tt) s
  = (Ok tt, State (<[r := fold_left (pushIfAbsent value) parts a]> (store s))
                  (expression s)).
Proof.
  induction parts as [|e parts IH]; intros s r a Hf Hr; simpl.
  - rewrite list_insert_id by assumption. now rewrite state_eta.
  - unfold mbind at 1, M_bind at 1. unfold mbind at 1, M_bind at 1.
    rewrite field_run, Hf, Hr. unfold pushIfAbsent at 2.
    destruct (array_indexOf a e <? 0).
    + unfold push at 1. rewrite Hr.
      erewrite IH; simpl; eauto.
      * now rewrite list_insert_insert_eq.
      * apply list_lookup_insert_eq. eapply lookup_lt_Some; eauto.
    + unfold mret at 1, M_ret at 1. now apply IH.
Qed.

Lemma addValue_run f value s :
  addValue f value s =
    match validateValue f value with
    | Throw e => (Throw e, s)
    | Ok _ =>
        match expression s !! f with
        | None => (Throw (Exn TypeError "Cannot read properties of undefined"), s)
        | Some r =>
            match store s !! r with
            | None => (Throw badReference, s)
            | Some a =>
                if isDefault a then
                  (Ok tt, State (store s ++ [[EStr value]])
                                (<[f := length (store s)]> (expression s)))
                else
                  (Ok tt, State (<[r := added value a]> (store s)) (expression s))
            end
        end
    end.
Proof.
  unfold addValue. unfold mbind at 1, M_bind at 1, lift at 1.
  destruct (validateValue f value); [|reflexivity].
  unfold mbind at 1, M_bind at 1. rewrite field_run.
  destruct (expression s !! f) as [r|] eqn:Hf; [|reflexivity].
  destruct (store s !! r) as [arr|] eqn:Hr; [|reflexivity].
  destruct (isDefault arr); [reflexivity|].
  now apply addValue_loop.
Qed.

Lemma removeValue_run f value s :
  removeValue f value s =
    match expression s !! f with
    | None => (Throw unknownMeasureOfTime, s)
    | Some r =>
        match store s !! r with
        | None => (Throw badReference, s)
        | Some a =>
            if isDefault a then (Ok (Some (noOp f)), s)
            else
              (Ok None,
               State (store s ++ [removed value a])
                     (if (length (removed value a) =? 0)%nat
                      then <[f := DEFAULT_INTERVAL]> (expression s)
                      else <[f := length (store s)]> (expression s)))
        end
    end.
Proof.
  unfold removeValue. munfold.
  destruct (expression s !! f) as [r|] eqn:Hf; [|reflexivity].
  destruct (store s !! r) as [a|] eqn:Hr; [|reflexivity].
  destruct (isDefault a); [reflexivity|].
  rewrite lookup_insert_eq. cbn [store expression].
  rewrite list_lookup_middle by reflexivity. fold (removed value a).
  destruct (length (removed value a) =? 0)%nat; [|reflexivity].
  cbn [store expression]. now rewrite insert_insert_eq.
Qed.

Lemma set_run f v s :
  set f (VArray v) s =
    match store s !! v with
    | None => (Throw badReference, s)
    | Some [] =>
        let st := (store s ++ [[EDefaultInterval]])%list in
        (Ok (array_join st [EDefaultInterval]),
         State st (<[f := length (store s)]> (expression s)))
    | Some a =>
        match forEach a (validateElem (store s) f) with
        | Throw e => (Throw e, s)
        | Ok _ =>
            (Ok (array_join (store s) a),
             State (store s) (<[f := v]> (expression s)))
        end
    end.
Proof.
  unfold set. munfold.
  destruct (store s !! v) as [a|] eqn:Hv; [|reflexivity].
  destruct a as [|x a]; cbn [length Nat.eqb store expression].
  - rewrite lookup_insert_eq. cbn [store expression].
    now rewrite list_lookup_middle by reflexivity.
  - destruct (forEach (x :: a) (validateElem (store s) f)); [|reflexivity].
    cbn [store expression]. rewrite lookup_insert_eq.
    cbn [store expression]. now rewrite Hv.
Qed.

Lemma set_other f s : set f VOther s = (Throw invalidValueType, s).
Proof. reflexivity. Qed.

End BuilderRuns.


(** * What the methods leave alone *)

Section Frames.
Import CronValidator CronBuilder.

Lemma bind_snd_unit {A} (m : M A) s : snd ((m;; mret tt) s) = snd (m s).
Proof. munfold. now destruct (m s) as [[]]. Qed.

Lemma bind_fst_unit {A} (m : M A) s :
  fst ((m;; mret tt) s) = match fst (m s) with Ok _ => Ok tt | Throw e => Throw e end.
Proof. munfold. now destruct (m s) as [[]]. Qed.

Lemma get_state f s : snd (get f s) = s.
Proof.
  rewrite get_run. destruct (expression s !! f) as [r|]; [|reflexivity].
  now destruct (store s !! r).
Qed.

Lemma field_join_state f s : snd (field_join f s) = s.
Proof. rewrite field_join_run. now destruct (tokens s f). Qed.

Lemma build_state s : snd (build s) = s.
Proof.
  unfold build, mbind, M_bind, mret, M_ret.
  repeat match goal with
         | |- context [field_join ?f s] =>
             pose proof (field_join_state f s);
             destruct (field_join f s) as [[] ?]; simpl in *; subst; trivial
         end.
Qed.

Lemma extends_refl s : extends s s.
Proof. now intros r a. Qed.

Lemma extends_trans s1 s2 s3 : extends s1 s2 -> extends s2 s3 -> extends s1 s3.
Proof. unfold extends. eauto. Qed.

Lemma extends_alloc s x e : extends s (State (store s ++ [x]) e).
Proof. intros r a H. simpl. now apply lookup_app_l_Some. Qed.

Lemma set_extends f v s : extends s (snd (set f v s)).
Proof.
  destruct v as [r|]; [|apply extends_refl].
  rewrite set_run. destruct (store s !! r) as [[|x a]|]; simpl;
    try apply extends_refl; [apply extends_alloc|].
  destruct (match validateElem (store s) f x with Ok _ => _ | Throw e => _ end);
    simpl; [|apply extends_refl].
  now intros r' a'.
Qed.

Lemma set_frame f v s g :
  g <> f -> expression (snd (set f v s)) !! g = expression s !! g.
Proof.
  intros Hg. destruct v as [r|]; [|reflexivity].
  rewrite set_run. destruct (store s !! r) as [[|x a]|]; simpl; trivial.
  - now rewrite lookup_insert_ne.
  - destruct (match validateElem (store s) f x with Ok _ => _ | Throw e => _ end);
      simpl; trivial.
    now rewrite lookup_insert_ne.
Qed.

Lemma setEach_cons f v rest s :
  setEach ((f, v) :: rest) s =
    match set f v s with
    | (Ok _, s1) => setEach rest s1
    | (Throw e, s1) => (Throw e, s1)
    end.
Proof.
  unfold setEach. simpl. munfold. now destruct (set f v s) as [[]].
Qed.

Lemma setEach_extends e : forall s, extends s (snd (setEach e s)).
Proof.
  induction e as [|[f v] e IH]; intros s; [apply extends_refl|].
  rewrite setEach_cons. pose proof (set_extends f v s) as H.
  destruct (set f v s) as [[] s1]; simpl in *; [|assumption].
  eapply extends_trans; eauto.
Qed.

Lemma setEach_frame e g : forall s,
  g ∉ e.*1 -> expression (snd (setEach e s)) !! g = expression s !! g.
Proof.
  induction e as [|[f v] e IH]; intros s Hg; [reflexivity|].
  rewrite setEach_cons. simpl in Hg. apply not_elem_of_cons in Hg as [Hf He].
  pose proof (set_frame f v s g Hf) as H.
  destruct (set f v s) as [[] s1]; simpl in *; [|assumption].
  now rewrite IH.
Qed.

Lemma joinAll_state e : forall s, snd (joinAll e s) = s.
Proof.
  induction e as [|[f v] e IH]; intros s; [reflexivity|].
  simpl. munfold. destruct v as [r|]; [|reflexivity].
  destruct (store s !! r); [|reflexivity].
  specialize (IH s). now destruct (joinAll e s) as [[]]; simpl in *; subst.
Qed.

(** When the first loop of [setAll] ends, every value it met is an array
    of the store. *)
Lemma joinAll_Ok e : forall s t,
  fst (joinAll e s) = Ok t ->
  Forall (fun fv => exists r a, fv.2 = VArray r /\ store s !! r = Some a) e.
Proof.
  induction e as [|[f v] e IH]; intros s t; [constructor|].
  simpl. munfold. destruct v as [r|]; [|discriminate].
  destruct (store s !! r) as [a|] eqn:Hr; [|discriminate].
  pose proof (joinAll_state e s) as Hs. specialize (IH s).
  destruct (joinAll e s) as [[t'|] s1]; simpl in *; [|discriminate].
  intros _. constructor; eauto.
Qed.

Lemma setAll_run e s :
  setAll e s =
    match fst (joinAll e s) with
    | Throw x => (Throw x, s)
    | Ok testExp =>
        match validateExpression testExp with
        | Throw x => (Throw x, s)
        | Ok _ => setEach e s
        end
    end.
Proof.
  unfold setAll. pose proof (joinAll_state e s) as Hs. munfold.
  destruct (joinAll e s) as [[t|] s1]; simpl in *; subst; [|reflexivity].
  now destruct (validateExpression t).
Qed.

Lemma setAll_extends e s : extends s (snd (setAll e s)).
Proof.
  rewrite setAll_run. destruct (fst (joinAll e s)); [|apply extends_refl].
  destruct (validateExpression a); [|apply extends_refl].
  apply setEach_extends.
Qed.

Lemma setAll_frame_expression e s g :
  g ∉ e.*1 -> expression (snd (setAll e s)) !! g = expression s !! g.
Proof.
  intros Hg. rewrite setAll_run. destruct (fst (joinAll e s)); [|reflexivity].
  destruct (validateExpression a); [|reflexivity].
  now apply setEach_frame.
Qed.

End Frames.


(** * What [setAll] assigns *)

Section Supplied.
Import CronValidator CronBuilder.

Lemma tokens_intro s f r a :
  expression s !! f = Some r -> store s !! r = Some a -> tokens s f = Some a.
Proof. unfold tokens. intros -> Hr. exact Hr. Qed.

Lemma tokens_kept s s' f a :
  extends s s' -> expression s' !! f = expression s !! f ->
  tokens s f = Some a -> tokens s' f = Some a.
Proof.
  unfold tokens. intros Hx ->. destruct (expression s !! f); simpl; [|discriminate].
  apply Hx.
Qed.

(** A successful [set] of the array [r]. *)
Lemma set_Ok f r a s :
  store s !! r = Some a -> (exists x, fst (set f (VArray r) s) = Ok x) ->
  tokens (snd (set f (VArray r) s)) f = Some (assigned a)
  /\ (a <> [] -> expression (snd (set f (VArray r) s)) !! f = Some r).
Proof.
  intros Hr [x Hx]. pose proof (set_run f r s) as E. rewrite Hr in E.
  destruct a as [|y a]; cbv zeta in E; rewrite E in *; clear E.
  - simpl. split; [|congruence].
    eapply tokens_intro; simpl; [apply lookup_insert_eq|].
    now apply list_lookup_middle.
  - destruct (forEach (y :: a) (validateElem (store s) f));
      simpl in *; [|discriminate].
    split; [|intros _; apply lookup_insert_eq].
    eapply tokens_intro; simpl; [apply lookup_insert_eq | assumption].
Qed.

Lemma setEach_supplied e : forall s,
  NoDup e.*1 -> fst (setEach e s) = Ok tt ->
  forall f r a, (f, VArray r) ∈ e -> store s !! r = Some a ->
    tokens (snd (setEach e s)) f = Some (assigned a)
    /\ (a <> [] -> expression (snd (setEach e s)) !! f = Some r).
Proof.
  induction e as [|[f0 v0] e IH]; intros s Hnd Hok f r a Hin Hr.
  - now apply elem_of_nil in Hin.
  - simpl in Hnd. apply NoDup_cons in Hnd as [Hf0 Hnd].
    rewrite setEach_cons in *.
    pose proof (set_extends f0 v0 s) as Hx.
    destruct (set f0 v0 s) as [[x|] s1] eqn:Hset; simpl in *; [|discriminate].
    apply elem_of_cons in Hin as [[= <- <-]|Hin].
    + destruct (set_Ok f r a s Hr) as [Ht He]; [rewrite Hset; eauto|].
      rewrite Hset in *. simpl in *. split.
      * eapply tokens_kept; [apply setEach_extends | now apply setEach_frame | exact Ht].
      * intros Ha. rewrite setEach_frame by assumption. auto.
    + apply IH; auto.
Qed.

End Supplied.


(** * Invariants of the builder *)

Section Invariant.
Import CronValidator CronBuilder.

Variable G : list elem -> Prop.
Hypothesis G_single : forall v, G [EStr v].
Hypothesis G_removed : forall v a,
  G a -> isDefault a = false -> removed v a <> [] -> G (removed v a).

Lemma fields_hold_alloc s x :
  fields_hold G s -> fields_hold G (State (store s ++ [x]) (expression s)).
Proof.
  intros H f r Hf. destruct (H f r Hf) as (a & Ha & HG).
  exists a. split; [now apply lookup_app_l_Some | assumption].
Qed.

Lemma fields_hold_assign s f r a :
  fields_hold G s -> store s !! r = Some a -> G a ->
  fields_hold G (State (store s) (<[f := r]> (expression s))).
Proof.
  intros H Hr HG g r' Hg. simpl in *.
  destruct (decide (f = g)) as [->|Hne].
  - rewrite lookup_insert_eq in Hg. injection Hg as <-. eauto.
  - rewrite lookup_insert_ne in Hg by assumption. eauto.
Qed.

Lemma fields_hold_update s r a a' :
  fields_hold G s -> store s !! r = Some a -> G a' ->
  fields_hold G (State (<[r := a']> (store s)) (expression s)).
Proof.
  intros H Hr HG g r' Hg. simpl in *.
  destruct (decide (r = r')) as [<-|Hne].
  - exists a'. split; [|assumption].
    apply list_lookup_insert_eq. eapply lookup_lt_Some; eauto.
  - rewrite list_lookup_insert_ne by assumption. eauto.
Qed.

Lemma validateString_throws e : exists x, validateString e = Throw x.
Proof.
  unfold validateString. destruct (5 <? length (Js.split " " e))%nat; [eauto|].
  pose proof (split_nonempty " " e) as H.
  destruct (Js.split " " e); [contradiction|]. simpl. eauto.
Qed.

Lemma new_default initialExpression s :
  new initialExpression = (Ok tt, s) ->
  s = State module_store
        {[ "minute" := DEFAULT_INTERVAL; "hour" := DEFAULT_INTERVAL;
           "dayOfTheMonth" := DEFAULT_INTERVAL; "month" := DEFAULT_INTERVAL;
           "dayOfTheWeek" := DEFAULT_INTERVAL ]}.
Proof.
  unfold new, constructor. destruct initialExpression as [[|c e]|];
    try (now intros [= <-]).
  destruct (validateString_throws (String c e)) as [x Hx].
  unfold mbind at 1, M_bind at 1, lift at 1. rewrite Hx. discriminate.
Qed.

Lemma new_invariant initialExpression s :
  new initialExpression = (Ok tt, s) -> default_intact s /\ fields_hold G s.
Proof.
  intros ->%new_default. split; [reflexivity|].
  intros f r Hf. exists [EStr "*"]. split; [|apply G_single].
  cbn [expression store] in *.
  repeat (apply lookup_insert_Some in Hf as [[_ <-]|[_ Hf]]; [reflexivity|]).
  now apply lookup_singleton_Some in Hf as [_ <-].
Qed.

Lemma addValue_invariant f v s :
  (forall a, G a -> isDefault a = false -> G (added v a)) ->
  default_intact s -> fields_hold G s ->
  default_intact (snd (addValue f v s)) /\ fields_hold G (snd (addValue f v s)).
Proof.
  intros Hv Hd HG. rewrite addValue_run.
  destruct (validateValue f v); [|now split].
  destruct (expression s !! f) as [r|] eqn:Hf; [|now split].
  destruct (store s !! r) as [arr|] eqn:Hr; [|now split].
  destruct (isDefault arr) eqn:Ha; simpl.
  - split; [now apply lookup_app_l_Some|].
    eapply (fields_hold_assign (State _ _)); simpl;
      [now apply fields_hold_alloc | now apply list_lookup_middle | apply G_single].
  - destruct (HG f r Hf) as (a' & Hr' & HGa). rewrite Hr in Hr'. injection Hr' as <-.
    split; [|eapply fields_hold_update; eauto].
    unfold default_intact in *. simpl.
    rewrite list_lookup_insert_ne; [assumption|].
    intros ->. rewrite Hd in Hr.
    injection Hr as <-. discriminate.
Qed.

Lemma removeValue_invariant f v s :
  default_intact s -> fields_hold G s ->
  default_intact (snd (removeValue f v s))
  /\ fields_hold G (snd (removeValue f v s)).
Proof.
  intros Hd HG. rewrite removeValue_run.
  destruct (expression s !! f) as [r|] eqn:Hf; [|now split].
  destruct (store s !! r) as [a|] eqn:Hr; [|now split].
  destruct (isDefault a) eqn:Ha; [now split|]. simpl.
  split; [now apply lookup_app_l_Some|].
  destruct (HG f r Hf) as (a' & Hr' & HGa). rewrite Hr in Hr'. injection Hr' as <-.
  destruct (removed v a) as [|x l] eqn:Hrem; simpl.
  - eapply (fields_hold_assign (State _ _)); simpl;
      [now apply fields_hold_alloc | | apply G_single].
    apply lookup_app_l_Some. exact Hd.
  - eapply (fields_hold_assign (State _ _)); simpl;
      [now apply fields_hold_alloc | now apply list_lookup_middle |].
    rewrite <- Hrem. apply G_removed; auto. now rewrite Hrem.
Qed.

Lemma set_invariant f v s :
  accepts G s v -> default_intact s -> fields_hold G s ->
  default_intact (snd (set f v s)) /\ fields_hold G (snd (set f v s)).
Proof.
  intros Hv Hd HG. destruct v as [r|]; [|now split].
  rewrite set_run. simpl in Hv.
  destruct (store s !! r) as [a|] eqn:Hr; [|now split].
  specialize (Hv a eq_refl). destruct a as [|x a].
  - simpl. split; [now apply lookup_app_l_Some|].
    eapply (fields_hold_assign (State _ _)); simpl;
      [now apply fields_hold_alloc | now apply list_lookup_middle | exact Hv].
  - destruct (forEach (x :: a) (validateElem (store s) f)); [|now split].
    split; [assumption|]. eapply fields_hold_assign; eauto.
Qed.

Lemma accepts_extends s s' r a :
  store s !! r = Some a -> extends s s' ->
  accepts G s (VArray r) -> accepts G s' (VArray r).
Proof.
  intros Hr Hx Hv a' Hr'. rewrite (Hx _ _ Hr) in Hr'.
  injection Hr' as <-. now apply Hv.
Qed.

Lemma setEach_invariant e : forall s,
  Forall (fun fv => exists r a, fv.2 = VArray r /\ store s !! r = Some a) e ->
  Forall (fun fv => accepts G s fv.2) e ->
  default_intact s -> fields_hold G s ->
  default_intact (snd (setEach e s)) /\ fields_hold G (snd (setEach e s)).
Proof.
  induction e as [|[f v] e IH]; intros s Hrefs Hacc Hd HG; [now split|].
  rewrite setEach_cons. inversion Hrefs as [|? ? _ Hrefs']; subst.
  inversion Hacc as [|? ? Hv Hacc']; subst. simpl in Hv.
  destruct (set_invariant f v s Hv Hd HG) as [Hd1 HG1].
  pose proof (set_extends f v s) as Hx.
  destruct (set f v s) as [[x|] s1]; simpl in *; [|now split].
  apply IH; auto.
  - eapply Forall_impl; [exact Hrefs'|]. intros [g w] (r & a & -> & Hr).
    exists r, a. auto.
  - rewrite Forall_forall in *. intros [g w] Hin.
    destruct (Hrefs' _ Hin) as (r & a & Hw & Hr). simpl in *. subst w.
    eapply accepts_extends; eauto. now apply (Hacc' (g, VArray r)).
Qed.

Lemma setAll_invariant e s :
  Forall (fun fv => accepts G s fv.2) e ->
  default_intact s -> fields_hold G s ->
  default_intact (snd (setAll e s)) /\ fields_hold G (snd (setAll e s)).
Proof.
  intros Hacc Hd HG. rewrite setAll_run.
  destruct (fst (joinAll e s)) as [t|] eqn:Hj; [|now split].
  destruct (validateExpression t); [|now split].
  apply setEach_invariant; auto. eapply joinAll_Ok; eauto.
Qed.

Lemma exec_invariant s o :
  permits G s o -> default_intact s -> fields_hold G s ->
  default_intact (exec o s) /\ fields_hold G (exec o s).
Proof.
  intros Hp Hd HG. destruct o; simpl in *.
  - split; [now apply lookup_app_l_Some | now apply fields_hold_alloc].
  - now apply addValue_invariant.
  - now apply removeValue_invariant.
  - now rewrite get_state.
  - now rewrite build_state.
  - now split.
  - now apply set_invariant.
  - now apply setAll_invariant.
Qed.

Lemma reachable_invariant s :
  reachable (permits G) s -> default_intact s /\ fields_hold G s.
Proof.
  induction 1 as [init s Hnew|s o _ [Hd HG] Hp].
  - eapply new_invariant; eauto.
  - now apply exec_invariant.
Qed.

End Invariant.

Lemma reachable_mono (P Q : state -> op -> Prop) s :
  (forall s o, P s o -> Q s o) -> reachable P s -> reachable Q s.
Proof.
  intros HPQ. induction 1; [eapply reach_new | eapply reach_step]; eauto.
Qed.


(** * Tokens kept apart *)

Section Instances.
Import CronValidator CronBuilder.

Lemma added_grows v parts : forall a,
  exists k, fold_left (pushIfAbsent v) parts a = (a ++ replicate k (EStr v))%list.
Proof.
  induction parts as [|e parts IH]; intros a; simpl.
  - exists 0%nat. simpl. now rewrite app_nil_r.
  - unfold pushIfAbsent at 2. destruct (array_indexOf a e <? 0); [|apply IH].
    destruct (IH (a ++ [EStr v])%list) as [k ->]. exists (S k).
    now rewrite <- app_assoc.
Qed.







Lemma nonempty_added v a : a <> [] -> added v a <> [].
Proof.
  unfold added. destruct (added_grows v (Js.split "," v) a) as [k ->].
  destruct a; [contradiction | discriminate].
Qed.

Lemma any_op_permits s o : any_op s o -> permits (fun a => a <> []) s o.
Proof.
  assert (Hset : forall v, accepts (fun a => a <> []) s v).
  { intros [r|]; [|exact I]. intros [|x a] _; discriminate. }
  intros _. destruct o; simpl; trivial.
  - intros a Ha _. now apply nonempty_added.
  - apply Forall_forall. intros [f v] _. apply Hset.
Qed.

Lemma reachable_nonempty s :
  reachable any_op s -> default_intact s /\ fields_hold (fun a => a <> []) s.
Proof.
  intros H. apply reachable_invariant.
  - discriminate.
  - auto.
  - eapply reachable_mono; [apply any_op_permits | exact H].
Qed.


(** The methods that take no array from the caller never meet a reference
    outside the store. *)
Lemma reachable_no_bad_reference s f v :
  reachable any_op s ->
  ~ fails_with BadReference (fst (get f s))
  /\ ~ fails_with BadReference (fst (addValue f v s))
  /\ ~ fails_with BadReference (fst (removeValue f v s)).
Proof.
  intros [_ HG]%reachable_nonempty.
  rewrite get_run, addValue_run, removeValue_run.
  assert (Hv : forall x, validateValue f v = Throw x -> kind x <> BadReference).
  { intros x Hx%validateValue_kinds Hk. rewrite Hk in Hx.
    destruct Hx as [|[|]]; discriminate. }
  destruct (validateValue f v) as [[]|x]; [|specialize (Hv x eq_refl)];
    (destruct (expression s !! f) as [r|] eqn:Hf;
     [destruct (HG f r Hf) as (a & -> & _); destruct (isDefault a)|]);
    simpl; repeat split; auto; discriminate.
Qed.

Lemma tokens_Some s f a :
  tokens s f = Some a ->
  exists r, expression s !! f = Some r /\ store s !! r = Some a.
Proof.
  unfold tokens. destruct (expression s !! f) as [r|]; simpl; [eauto | discriminate].
Qed.

End Instances.


(** * The claims *)

Section BuilderClaims.
Import CronValidator CronBuilder.

(** C1.  Construction from the canonical string ["0 0 1 1 0"] does not
    succeed: [validateString] reads the missing static member
    [CronValidator.splitExpression] for the part to validate, which throws a
    [TypeError] on the first part, so no builder exists to call [build]
    on. *)
Theorem constructor_from_string_throws :
  new (Some "0 0 1 1 0")
  = (Throw (Exn TypeError "Cannot read properties of undefined"), module_state).
Proof. reflexivity. Qed.

(** C2.  On a default builder [addValue("hour", "5")] then
    [addValue("hour", "10")] gives ["5,10"]; but a value with a comma is
    pushed whole, once for each of its parts that is absent: after ["5"],
    adding ["5,6"] leaves the tokens ["5"; "5,6"], read as ["5,5,6"], and
    adding ["1,2"] leaves ["5"; "1,2"; "1,2"]. *)
Theorem addValue_pushes_whole_value :
  let s1 := snd (addValue "hour" "5" (snd (new None))) in
  fst (get "hour" s1) = Ok "5"
  /\ fst (get "hour" (snd (addValue "hour" "10" s1))) = Ok "5,10"
  /\ tokens (snd (addValue "hour" "5,6" s1)) "hour" = Some [EStr "5"; EStr "5,6"]
  /\ fst (get "hour" (snd (addValue "hour" "5,6" s1))) = Ok "5,5,6"
  /\ tokens (snd (addValue "hour" "1,2" s1)) "hour"
     = Some [EStr "5"; EStr "1,2"; EStr "1,2"].
Proof. vm_compute. repeat split. Qed.


(** [set] stores an array that mixes the wildcard with explicit tokens as
    it is. *)
Lemma set_keeps_the_wildcard :
  let s := snd (new_array [EStr "*"; EStr "5"] (snd (new None))) in
  fst (set "hour" (VArray 1) s) = Ok "*,5"
  /\ tokens (snd (set "hour" (VArray 1) s)) "hour" = Some [EStr "*"; EStr "5"].
Proof. vm_compute. split; reflexivity. Qed.



End BuilderClaims.


Section ValidationClaims.
Import CronValidator CronBuilder.

Lemma succeeds_Ok (r : result unit) : succeeds r = true -> r = Ok tt.
Proof. now destruct r as [[]|]. Qed.

Lemma forallb_seqZ (P : Z -> bool) lo hi :
  forallb P (seqZ lo (hi - lo + 1)) = true ->
  forall t, lo <= t <= hi -> P t = true.
Proof.
  intros H t Ht. rewrite forallb_forall in H. apply H.
  apply list_elem_of_In, elem_of_seqZ. lia.
Qed.

Lemma validateValue_in_range f r :
  validatorObj f = Some r ->
  forall t, min r <= t <= max r -> validateValue f (Js.ofNumber t) = Ok tt.
Proof.
  intros Hf t Ht. apply succeeds_Ok. revert t Ht.
  apply validatorObj_Some in Hf.
  repeat (destruct Hf as [[= <- <-]|Hf];
          [apply (forallb_seqZ (fun t => succeeds (validateValue _ (Js.ofNumber t))));
           vm_compute; reflexivity|]).
  destruct Hf.
Qed.

(** [set] hands every element of a non-empty array to [validateValue] and
    stops at the first that fails, before it assigns. *)
Lemma set_delegates f v t e s :
  store s !! v = Some [EStr t] -> validateValue f t = Throw e ->
  set f (VArray v) s = (Throw e, s).
Proof.
  intros Hv Ht. rewrite set_run, Hv. simpl. now rewrite Ht.
Qed.

(** C4, as stated, fails: for [minute] the token below the minimum is
    ["-1"], which the character check rejects before any comparison. *)
Lemma below_minimum_counterexample :
  validatorObj "minute" = Some (Range 0 59)
  /\ validateValue "minute" (Js.ofNumber (0 - 1)) = Throw invalidChars
  /\ ~ fails_with OutOfRange (validateValue "minute" (Js.ofNumber (0 - 1))).
Proof. vm_compute. repeat split. discriminate. Qed.

(** C4, amended.  For every field [f] with range [r]: every integer token
    within the range passes; the token [max + 1] fails with [OutOfRange];
    the token [min - 1] fails with [OutOfRange] when it is not negative
    (month) and with [InvalidCharacter] when it is [-1]; and [set] fails
    with the exception of [validateValue], leaving the state as it was, so
    [set("minute", ["60"])] fails with [OutOfRange]. *)
Theorem validateValue_range f r :
  validatorObj f = Some r ->
  (forall t, min r <= t <= max r -> validateValue f (Js.ofNumber t) = Ok tt)
  /\ fails_with OutOfRange (validateValue f (Js.ofNumber (max r + 1)))
  /\ fails_with (if 0 <=? min r - 1 then OutOfRange else InvalidCharacter)
       (validateValue f (Js.ofNumber (min r - 1)))
  /\ (forall s v t e, store s !! v = Some [EStr t] ->
        validateValue f t = Throw e -> set f (VArray v) s = (Throw e, s))
  /\ (forall s v, store s !! v = Some [EStr "60"] ->
        fails_with OutOfRange (fst (set "minute" (VArray v) s))
        /\ snd (set "minute" (VArray v) s) = s).
Proof.
  intros Hf. split; [now apply validateValue_in_range|].
  split; [|split; [|split]].
  - apply validatorObj_Some in Hf.
    repeat (destruct Hf as [[= <- <-]|Hf]; [reflexivity|]). destruct Hf.
  - apply validatorObj_Some in Hf.
    repeat (destruct Hf as [[= <- <-]|Hf]; [reflexivity|]). destruct Hf.
  - intros s v t e. apply set_delegates.
  - intros s v Hv.
    rewrite (set_delegates "minute" v "60" (aboveMaximum "minute" (Range 0 59)) s Hv eq_refl).
    split; reflexivity.
Qed.

Lemma validateValue_range_witness :
  validatorObj "month" = Some (Range 1 12)
  /\ validateValue "month" (Js.ofNumber 12) = Ok tt
  /\ fails_with OutOfRange (validateValue "month" (Js.ofNumber 13))
  /\ fails_with OutOfRange (validateValue "month" (Js.ofNumber 0)).
Proof.
  split; [reflexivity|].
  destruct (validateValue_range "month" (Range 1 12) eq_refl) as (Hin & Hmax & Hmin & _).
  split; [apply Hin; simpl; lia|]. split; [exact Hmax | exact Hmin].
Defined.

(** C5.  [set] with an empty array does not leave the field at the
    default: it stores a new array whose one element is the
    [DEFAULT_INTERVAL] array.  The field reads ["*"], but it is not
    recognised as the default afterwards: [addValue] appends to it and
    [removeValue] does not answer with the no-op message. *)
Theorem set_empty_wraps_default :
  let s0 := snd (new_array [] (snd (new None))) in
  let s1 := snd (set "month" (VArray 1) s0) in
  tokens s0 "month" = Some [EStr "*"]
  /\ fst (get "month" (snd (addValue "month" "5" s0))) = Ok "5"
  /\ fst (set "month" (VArray 1) s0) = Ok "*"
  /\ tokens s1 "month" = Some [EDefaultInterval]
  /\ isDefault [EDefaultInterval] = false
  /\ fst (get "month" (snd (addValue "month" "5" s1))) = Ok "*,5"
  /\ fst (removeValue "month" "1" s1) = Ok None.
Proof. vm_compute. repeat split. Qed.

(** The rest of what [set] does: anything but an array is refused, a
    non-empty array is validated element by element before the field is
    touched, and a valid one becomes the field's array as it is. *)
Lemma set_nonempty f v a s :
  store s !! v = Some a -> a <> [] ->
  set f VOther s = (Throw invalidValueType, s)
  /\ (forall e, forEach a (validateElem (store s) f) = Throw e ->
        set f (VArray v) s = (Throw e, s))
  /\ (forEach a (validateElem (store s) f) = Ok tt ->
        set f (VArray v) s
        = (Ok (array_join (store s) a), State (store s) (<[f := v]> (expression s)))).
Proof.
  intros Hv Ha. split; [reflexivity|]. rewrite set_run, Hv.
  destruct a as [|x a]; [contradiction|].
  split; [intros e ->|intros ->]; reflexivity.
Qed.

End ValidationClaims.


Section FieldClaims.
Import CronValidator CronBuilder.






(** C7.  [setAll] leaves every field that the object does not name with
    the array it had, and the arrays of the store with their elements;
    when it succeeds, every field the object names holds what [set] makes
    of the array given for it.  [setAll({hour: ["5"]})] only makes [hour]
    refer to the array given. *)
Theorem setAll_frame s expToSet :
  (forall g, g ∉ expToSet.*1 ->
     expression (snd (setAll expToSet s)) !! g = expression s !! g)
  /\ extends s (snd (setAll expToSet s))
  /\ (NoDup expToSet.*1 -> fst (setAll expToSet s) = Ok tt ->
      forall f v, (f, v) ∈ expToSet ->
        exists r a, v = VArray r /\ store s !! r = Some a
          /\ tokens (snd (setAll expToSet s)) f = Some (assigned a)
          /\ (a <> [] -> expression (snd (setAll expToSet s)) !! f = Some r))
  /\ (forall r, store s !! r = Some [EStr "5"] ->
        setAll [("hour", VArray r)] s
        = (Ok tt, State (store s) (<["hour" := r]> (expression s)))).
Proof.
  split; [intros g; apply setAll_frame_expression|].
  split; [apply setAll_extends|]. split.
  - intros Hnd Hok f v Hin. rewrite setAll_run in *.
    destruct (fst (joinAll expToSet s)) as [t|] eqn:Hj; [|discriminate].
    pose proof (joinAll_Ok _ _ _ Hj) as Hrefs.
    rewrite Forall_forall in Hrefs.
    destruct (Hrefs _ Hin) as (r & a & Hv & Hr). simpl in Hv. subst v.
    exists r, a. split; [reflexivity|]. split; [assumption|].
    destruct (validateExpression t); [|discriminate].
    now apply setEach_supplied.
  - intros r Hr. rewrite setAll_run. simpl. munfold. rewrite Hr. simpl.
    rewrite setEach_cons, set_run, Hr. simpl. reflexivity.
Qed.

Lemma setAll_frame_witness :
  let s := snd (new_array [EStr "5"] (snd (new None))) in
  let s' := snd (setAll [("hour", VArray 1)] s) in
  NoDup [("hour", VArray 1)].*1
  /\ fst (setAll [("hour", VArray 1)] s) = Ok tt
  /\ expression s' !! "minute" = expression s !! "minute"
  /\ (exists r a, VArray 1 = VArray r /\ store s !! r = Some a
        /\ tokens s' "hour" = Some (assigned a)
        /\ (a <> [] -> expression s' !! "hour" = Some r)).
Proof.
  assert (Hnd : NoDup [("hour", VArray 1)].*1)
    by (apply NoDup_singleton).
  split; [exact Hnd|]. split; [reflexivity|].
  destruct (setAll_frame (snd (new_array [EStr "5"] (snd (new None))))
              [("hour", VArray 1)]) as (Hframe & _ & Hsup & _).
  split.
  - apply Hframe. simpl. intros [H|H]%elem_of_cons; [discriminate|].
    now apply elem_of_nil in H.
  - apply (Hsup Hnd eq_refl "hour" (VArray 1)). apply list_elem_of_here.
Defined.

(** C8.  [removeValue] on a field that holds the wildcard alone returns
    the no-op message and changes nothing; [get] still returns ["*"]. *)
Theorem removeValue_default_noop s f v :
  tokens s f = Some [EStr "*"] ->
  removeValue f v s = (Ok (Some (noOp f)), s) /\ get f s = (Ok "*", s).
Proof.
  intros (r & Hf & Hr)%tokens_Some.
  rewrite removeValue_run, get_run, Hf, Hr. split; reflexivity.
Qed.

Lemma removeValue_default_noop_witness :
  tokens (snd (new None)) "month" = Some [EStr "*"]
  /\ removeValue "month" "5" (snd (new None))
     = (Ok (Some (noOp "month")), snd (new None))
  /\ get "month" (snd (new None)) = (Ok "*", snd (new None)).
Proof.
  split; [reflexivity|].
  exact (removeValue_default_noop (snd (new None)) "month" "5" eq_refl).
Defined.

(** C9.  A builder constructed with no initial expression has its five
    fields at ["*"], and [build] returns ["* * * * *"]. *)
Theorem default_construction :
  exists s, new None = (Ok tt, s)
    /\ dom (expression s) = list_to_set MeasureOfTimeValues
    /\ Forall (fun f => tokens s f = Some [EStr "*"]) MeasureOfTimeValues
    /\ build s = (Ok "* * * * *", s).
Proof.
  eexists. split; [reflexivity|]. split; [|split].
  - apply leibniz_equiv. cbn [expression]. rewrite !dom_insert, dom_singleton.
    unfold MeasureOfTimeValues. simpl. set_solver.
  - repeat constructor.
  - reflexivity.
Qed.

End FieldClaims.


Section EmptyTokenClaims.
Import CronValidator CronBuilder.

Lemma validChars_app a b :
  validChars_test (a ++ b) = validChars_test a || validChars_test b.
Proof.
  unfold validChars_test. induction a as [|c a IH]; simpl; [reflexivity|].
  now rewrite IH, orb_assoc.
Qed.

Lemma validateValue_Ok f r v :
  validatorObj f = Some r -> validateValue f v = Ok tt ->
  validChars_test v = false
  /\ Forall (fun e => checkToken f r e = Ok tt) (Js.split "," v).
Proof.
  intros Hf. rewrite (validateValue_split f r v Hf).
  destruct (validChars_test v); [discriminate|].
  intros H%forEach_Ok. now split.
Qed.

(** C10.  For every recognised field the empty token passes
    [validateValue]: it has no forbidden character, is not ["*"], has no
    comma, and parses to NaN, which is neither below the minimum nor above
    the maximum.  Hence an empty part between two commas does not make a
    list fail: if [a] and [b] pass, so does [a] followed by two commas and
    [b]. *)
Theorem validateValue_empty f r :
  validatorObj f = Some r ->
  validChars_test EmptyString = false
  /\ String.eqb EmptyString "*" = false
  /\ Js.indexOf EmptyString "," = -1
  /\ Js.parseInt EmptyString = None
  /\ Js.lt (Js.parseInt EmptyString) (min r) = false
  /\ Js.gt (Js.parseInt EmptyString) (max r) = false
  /\ validateValue f EmptyString = Ok tt
  /\ (forall a b, validateValue f a = Ok tt -> validateValue f b = Ok tt ->
        validateValue f (a ++ ",," ++ b) = Ok tt).
Proof.
  intros Hf. repeat (split; [reflexivity|]). split.
  - rewrite (validateValue_split f r EmptyString Hf). reflexivity.
  - intros a b [Ha1 Ha2]%(validateValue_Ok f r) [Hb1 Hb2]%(validateValue_Ok f r);
      try assumption.
    rewrite (validateValue_split f r _ Hf).
    rewrite !validChars_app, Ha1, Hb1. simpl.
    change (",," ++ b) with (String "," (String "," b)).
    rewrite split_app. simpl.
    apply forEach_Ok. apply Forall_app. split; [assumption|].
    constructor; [reflexivity | assumption].
Qed.

Lemma validateValue_empty_witness :
  validatorObj "minute" = Some (Range 0 59)
  /\ validateValue "minute" "5" = Ok tt
  /\ validateValue "minute" "7" = Ok tt
  /\ validateValue "minute" EmptyString = Ok tt
  /\ validateValue "minute" "5,,7" = Ok tt.
Proof.
  split; [reflexivity|]. split; [reflexivity|]. split; [reflexivity|].
  destruct (validateValue_empty "minute" (Range 0 59) eq_refl)
    as (_ & _ & _ & _ & _ & _ & Hempty & Hlist).
  split; [exact Hempty|]. exact (Hlist "5" "7" eq_refl eq_refl).
Defined.

End EmptyTokenClaims.

(** * More about the validator *)

Section ValidatorExtras.
Import CronValidator.

Lemma checkToken_Ok f r e : checkToken f r e = Ok tt <-> within r (Js.parseInt e).
Proof.
  unfold checkToken. destruct (String.eqb_spec e "*") as [->|_].
  - split; [intros _; exact I | reflexivity].
  - unfold Js.lt, Js.gt, within. destruct (Js.parseInt e) as [z|]; [|tauto].
    destruct (Z.ltb_spec z (min r)); [split; [discriminate | lia]|].
    destruct (Z.ltb_spec (max r) z); [split; [discriminate | lia]|].
    split; [lia | reflexivity].
Qed.

(** X1.  On a recognised field [validateValue] first refuses a value with a
    character outside digits, ["*"], [","] and white space; otherwise it
    succeeds exactly when the integer that [parseInt] reads at the start of
    each comma-separated part, if there is one, lies within the range of the
    field: a part with no leading digits passes, and what follows the
    leading digits of a part is ignored. *)
Theorem validateValue_parts f r v :
  validatorObj f = Some r ->
  (validChars_test v = true -> validateValue f v = Throw invalidChars)
  /\ (validateValue f v = Ok tt <->
        validChars_test v = false
        /\ Forall (fun e => within r (Js.parseInt e)) (Js.split "," v)).
Proof.
  intros Hf. rewrite (validateValue_split f r v Hf). split.
  - now intros ->.
  - destruct (validChars_test v).
    + split; [discriminate | intros [[=] _]].
    + rewrite forEach_Ok. split.
      * intros H. split; [reflexivity|].
        eapply Forall_impl; [exact H|]. intros e. apply checkToken_Ok.
      * intros [_ H]. eapply Forall_impl; [exact H|]. intros e. apply checkToken_Ok.
Qed.

Lemma validateValue_parts_witness :
  validatorObj "hour" = Some (Range 0 23)
  /\ validChars_test "07,5*,, **" = false
  /\ Forall (fun e => within (Range 0 23) (Js.parseInt e)) (Js.split "," "07,5*,, **")
  /\ validateValue "hour" "07,5*,, **" = Ok tt
  /\ validChars_test "1-5" = true
  /\ validateValue "hour" "1-5" = Throw invalidChars.
Proof.
  assert (HF : Forall (fun e => within (Range 0 23) (Js.parseInt e))
                 (Js.split "," "07,5*,, **")).
  { repeat constructor; simpl; lia. }
  destruct (validateValue_parts "hour" (Range 0 23) "07,5*,, **" eq_refl) as [_ H1].
  destruct (validateValue_parts "hour" (Range 0 23) "1-5" eq_refl) as [H2 _].
  split; [reflexivity|]. split; [reflexivity|]. split; [exact HF|].
  split; [apply H1; split; [reflexivity | exact HF]|].
  split; [reflexivity | exact (H2 eq_refl)].
Defined.


Lemma split_join (l : list string) :
  l <> [] -> Js.split "," (Js.join "," l) = concat (map (Js.split ",") l).
Proof.
  induction l as [|e [|e' l] IH]; intros Hl; [contradiction| |].
  - simpl. now rewrite app_nil_r.
  - change (Js.join "," (e :: e' :: l)) with (e ++ String "," (Js.join "," (e' :: l))).
    rewrite split_app, IH by discriminate. reflexivity.
Qed.

Lemma validChars_join (l : list string) :
  validChars_test (Js.join "," l) = existsb validChars_test l.
Proof.
  induction l as [|e [|e' l] IH]; [reflexivity| |].
  - simpl. now rewrite orb_false_r.
  - change (Js.join "," (e :: e' :: l)) with (e ++ String "," (Js.join "," (e' :: l))).
    rewrite validChars_app.
    change (String "," (Js.join "," (e' :: l))) with ("," ++ Js.join "," (e' :: l)).
    rewrite validChars_app, IH. reflexivity.
Qed.

(** X3.  Validating strings joined with commas is validating each of them:
    on a recognised field a comma-join of strings passes [validateValue]
    exactly when every one of the strings does (whether or not they contain
    commas themselves). *)
Theorem validateValue_join f r (l : list string) :
  validatorObj f = Some r ->
  (validateValue f (Js.join "," l) = Ok tt
   <-> Forall (fun e => validateValue f e = Ok tt) l).
Proof.
  intros Hf. destruct l as [|e0 l0].
  { split; [constructor|]. intros _. rewrite (validateValue_split f r _ Hf). reflexivity. }
  set (l := e0 :: l0).
  rewrite (proj2 (validateValue_parts f r _ Hf)).
  rewrite validChars_join, split_join by discriminate.
  rewrite Forall_concat, Forall_map.
  assert (Hx : existsb validChars_test l = false
               <-> Forall (fun e => validChars_test e = false) l).
  { clearbody l. induction l as [|e l IH]; simpl; [split; [constructor | reflexivity]|].
    rewrite orb_false_iff, IH. split; [intros []; now constructor | now inversion 1]. }
  rewrite Hx, <- Forall_and. apply Forall_iff. intros e.
  symmetry. apply (proj2 (validateValue_parts f r e Hf)).
Qed.

Lemma validateValue_join_witness :
  validatorObj "month" = Some (Range 1 12)
  /\ (validateValue "month" (Js.join "," ["1,2"; "*"; "12"]) = Ok tt
      <-> Forall (fun e => validateValue "month" e = Ok tt) ["1,2"; "*"; "12"])
  /\ validateValue "month" "1,2,*,12" = Ok tt.
Proof.
  split; [reflexivity|].
  split; [exact (validateValue_join "month" (Range 1 12) ["1,2"; "*"; "12"] eq_refl)|].
  reflexivity.
Defined.

End ValidatorExtras.

Section ValidatorExtras2.
Import CronValidator CronBuilder.



(** X5.  [validateString] never returns: it throws [TooManyFields] when the
    string has more than five space-separated parts and a [TypeError]
    otherwise.  So the constructor succeeds only without an initial
    expression or with the empty string, and then leaves the five fields at
    [DEFAULT_INTERVAL]; with any other string it throws before
    [this.expression] is assigned. *)
Theorem construction_only_default (initialExpression : option string) :
  (forall e, validateString e
     = Throw (if (5 <? length (Js.split " " e))%nat then tooManyValues
              else Exn TypeError "Cannot read properties of undefined"))
  /\ match initialExpression with
     | Some (String c e) =>
         new initialExpression
         = (Throw (if (5 <? length (Js.split " " (String c e)))%nat
                   then tooManyValues
                   else Exn TypeError "Cannot read properties of undefined"),
            module_state)
     | _ => new initialExpression = (Ok tt, default_state)
     end.
Proof.
  assert (H : forall e, validateString e
     = Throw (if (5 <? length (Js.split " " e))%nat then tooManyValues
              else Exn TypeError "Cannot read properties of undefined")).
  { intros e. unfold validateString.
    destruct (5 <? length (Js.split " " e))%nat; [reflexivity|].
    pose proof (split_nonempty " " e) as Hne.
    destruct (Js.split " " e); [contradiction | reflexivity]. }
  split; [exact H|].
  destruct initialExpression as [[|c e]|]; try reflexivity.
  unfold new, constructor. unfold mbind at 1, M_bind at 1, lift at 1.
  now rewrite H.
Qed.

End ValidatorExtras2.

(** * More about the builder *)

Section BuilderExtras.
Import CronValidator CronBuilder.

Lemma set_keeps_keys f v s g :
  is_Some (expression s !! g) -> is_Some (expression (snd (set f v s)) !! g).
Proof.
  intros Hg. destruct v as [r|]; [|exact Hg]. rewrite set_run.
  destruct (store s !! r) as [[|x a]|]; [| |exact Hg].
  - cbn [snd expression]. apply lookup_insert_is_Some'. now right.
  - destruct (forEach (x :: a) (validateElem (store s) f)); [|exact Hg].
    cbn [snd expression]. apply lookup_insert_is_Some'. now right.
Qed.

Lemma setEach_keeps_keys e g : forall s,
  is_Some (expression s !! g) -> is_Some (expression (snd (setEach e s)) !! g).
Proof.
  induction e as [|[f v] e IH]; intros s Hg; [exact Hg|].
  rewrite setEach_cons. pose proof (set_keeps_keys f v s g Hg) as H.
  destruct (set f v s) as [[] s1]; simpl in *; auto.
Qed.

Lemma exec_keeps_keys o s g :
  is_Some (expression s !! g) -> is_Some (expression (exec o s) !! g).
Proof.
  intros Hg. destruct o as [l|f v|f v|f| | |f v|e]; simpl.
  - exact Hg.
  - rewrite addValue_run. destruct (validateValue f v) as [[]|x]; [|exact Hg].
    destruct (expression s !! f) as [r|]; [|exact Hg].
    destruct (store s !! r) as [a|]; [|exact Hg].
    destruct (isDefault a); [|exact Hg].
    cbn [snd expression]. apply lookup_insert_is_Some'. now right.
  - rewrite removeValue_run. destruct (expression s !! f) as [r|]; [|exact Hg].
    destruct (store s !! r) as [a|]; [|exact Hg].
    destruct (isDefault a); [exact Hg|]. cbn [snd expression].
    destruct (length (removed v a) =? 0)%nat; apply lookup_insert_is_Some'; now right.
  - now rewrite get_state.
  - now rewrite build_state.
  - exact Hg.
  - now apply set_keeps_keys.
  - rewrite setAll_run. destruct (fst (joinAll e s)) as [t|]; [|exact Hg].
    destruct (validateExpression t); [|exact Hg].
    now apply setEach_keeps_keys.
Qed.

Lemma reachable_has_fields s : reachable any_op s -> has_fields s.
Proof.
  induction 1 as [init s Hnew|s o _ IH _].
  - apply new_default in Hnew as ->. unfold has_fields. cbn [expression].
    repeat constructor; eexists; reflexivity.
  - unfold has_fields in *. eapply Forall_impl; [exact IH|].
    intros f. apply exec_keeps_keys.
Qed.

Lemma reachable_field_tokens s f :
  reachable any_op s -> In f MeasureOfTimeValues ->
  exists r a, expression s !! f = Some r /\ store s !! r = Some a /\ a <> [].
Proof.
  intros Hs Hf. pose proof (reachable_has_fields s Hs) as Hk.
  destruct (reachable_nonempty s Hs) as [_ HG].
  unfold has_fields in Hk. rewrite Forall_forall in Hk.
  destruct (Hk f) as [r Hr]; [now apply list_elem_of_In|].
  destruct (HG f r Hr) as (a & Ha & Hne). eauto.
Qed.

(** X6.  On a constructed builder, after any sequence of operations,
    [build] does not throw and does not change the state: it returns what
    [get] returns for minute, hour, dayOfTheMonth, month and dayOfTheWeek,
    in this order, joined by single spaces. *)
Theorem build_joins_get s :
  reachable any_op s ->
  exists minute hour dayOfTheMonth month dayOfTheWeek,
    get "minute" s = (Ok minute, s)
    /\ get "hour" s = (Ok hour, s)
    /\ get "dayOfTheMonth" s = (Ok dayOfTheMonth, s)
    /\ get "month" s = (Ok month, s)
    /\ get "dayOfTheWeek" s = (Ok dayOfTheWeek, s)
    /\ build s
       = (Ok (Js.join " " [minute; hour; dayOfTheMonth; month; dayOfTheWeek]), s).
Proof.
  intros Hs.
  destruct (reachable_field_tokens s "minute" Hs) as (r1 & a1 & E1 & S1 & _);
    [simpl; tauto|].
  destruct (reachable_field_tokens s "hour" Hs) as (r2 & a2 & E2 & S2 & _);
    [simpl; tauto|].
  destruct (reachable_field_tokens s "dayOfTheMonth" Hs) as (r3 & a3 & E3 & S3 & _);
    [simpl; tauto|].
  destruct (reachable_field_tokens s "month" Hs) as (r4 & a4 & E4 & S4 & _);
    [simpl; tauto|].
  destruct (reachable_field_tokens s "dayOfTheWeek" Hs) as (r5 & a5 & E5 & S5 & _);
    [simpl; tauto|].
  exists (array_join (store s) a1), (array_join (store s) a2),
    (array_join (store s) a3), (array_join (store s) a4), (array_join (store s) a5).
  rewrite !get_run, E1, E2, E3, E4, E5, S1, S2, S3, S4, S5.
  repeat (split; [reflexivity|]).
  assert (HJ : forall f r a, expression s !! f = Some r -> store s !! r = Some a ->
                 field_join f s = (Ok (array_join (store s) a), s)).
  { intros f r a E S. rewrite field_join_run. now rewrite (tokens_intro _ _ _ _ E S). }
  unfold build. unfold mbind, M_bind, mret, M_ret.
  rewrite (HJ _ _ _ E1 S1). cbn beta iota. rewrite (HJ _ _ _ E2 S2). cbn beta iota.
  rewrite (HJ _ _ _ E3 S3). cbn beta iota. rewrite (HJ _ _ _ E4 S4). cbn beta iota.
  rewrite (HJ _ _ _ E5 S5). reflexivity.
Qed.

Lemma build_joins_get_witness :
  let s := exec (OAddValue "month" "3") (exec (OAddValue "hour" "5") (snd (new None))) in
  reachable any_op s /\ build s = (Ok "* 5 * 3 *", s).
Proof.
  assert (H : reachable any_op
    (exec (OAddValue "month" "3") (exec (OAddValue "hour" "5") (snd (new None))))).
  { repeat (apply reach_step; [|exact I]). now apply (reach_new _ None). }
  split; [exact H|].
  destruct (build_joins_get _ H) as (m & h & d & mo & w & Hm & Hh & Hd & Hmo & Hw & Hb).
  injection Hm as <-. injection Hh as <-. injection Hd as <-.
  injection Hmo as <-. injection Hw as <-. exact Hb.
Defined.

(** X7.  What [set] returns is what [get] returns next: after a call
    [set(f, value)] that does not throw, [get(f)] succeeds with the same
    string and changes nothing. *)
Theorem set_then_get f v s x s' :
  set f v s = (Ok x, s') -> get f s' = (Ok x, s').
Proof.
  destruct v as [r|]; [|discriminate]. rewrite set_run.
  destruct (store s !! r) as [[|y a]|] eqn:Hr; [| |discriminate].
  - intros [= <- <-]. rewrite get_run. cbn [expression store].
    rewrite lookup_insert_eq. now rewrite list_lookup_middle by reflexivity.
  - destruct (forEach (y :: a) (validateElem (store s) f)); [|discriminate].
    intros [= <- <-]. rewrite get_run. cbn [expression store].
    now rewrite lookup_insert_eq, Hr.
Qed.

Lemma set_then_get_witness :
  let s := snd (new_array [EStr "1"; EStr "15"; EStr "1"] (snd (new None))) in
  let s' := State (store s) (<["dayOfTheMonth" := 1%nat]> (expression s)) in
  set "dayOfTheMonth" (VArray 1) s = (Ok "1,15,1", s')
  /\ get "dayOfTheMonth" s' = (Ok "1,15,1", s').
Proof.
  split; [reflexivity|].
  apply (set_then_get "dayOfTheMonth" (VArray 1)
           (snd (new_array [EStr "1"; EStr "15"; EStr "1"] (snd (new None))))).
  reflexivity.
Defined.



End BuilderExtras.

Section ArrayExtras.
Import CronValidator CronBuilder.

Lemma array_indexOf_absent a v :
  (array_indexOf a v <? 0) = negb (existsb (elem_is v) a).
Proof.
  induction a as [|e a IH]; [reflexivity|]. simpl.
  destruct (elem_is v e); [reflexivity|]. simpl. rewrite <- IH.
  destruct (Z.ltb_spec (array_indexOf a v) 0) as [H|H]; [reflexivity|].
  apply Z.ltb_ge. lia.
Qed.

Lemma added_comma_free v a :
  Js.indexOf v "," < 0 ->
  added v a = if array_indexOf a v <? 0 then (a ++ [EStr v])%list else a.
Proof. intros Hv. unfold added. now rewrite (split_whole _ _ Hv). Qed.

Lemma isDefault_inv a : isDefault a = true -> a = [EStr "*"].
Proof.
  destruct a as [|[t|] [|? ?]]; try discriminate.
  unfold isDefault. simpl. now intros ->%String.eqb_eq.
Qed.

(** X9.  For a value without a comma, on a field that is not at the
    default, [addValue] appends the value when the field does not hold it
    yet and changes nothing otherwise; a second [addValue] of the same
    value leaves the tokens of the field as they are. *)
Theorem addValue_comma_free s f v a :
  validateValue f v = Ok tt -> Js.indexOf v "," < 0 ->
  tokens s f = Some a -> isDefault a = false ->
  let s1 := snd (addValue f v s) in
  tokens s1 f = Some (if array_indexOf a v <? 0 then (a ++ [EStr v])%list else a)
  /\ tokens (snd (addValue f v s1)) f = tokens s1 f.
Proof.
  intros Hv Hc (r & Hf & Hr)%tokens_Some Ha. cbv zeta.
  pose proof (lookup_lt_Some _ _ _ Hr) as Hlt.
  assert (H1 : addValue f v s
               = (Ok tt, State (<[r := added v a]> (store s)) (expression s))).
  { now rewrite addValue_run, Hv, Hf, Hr, Ha. }
  rewrite H1. cbn [snd].
  assert (Ht : tokens (State (<[r := added v a]> (store s)) (expression s)) f
               = Some (added v a)).
  { eapply tokens_intro; [exact Hf|]. simpl. now apply list_lookup_insert_eq. }
  rewrite Ht, <- (added_comma_free v a Hc). split; [reflexivity|].
  rewrite addValue_run, Hv. cbn [expression store]. rewrite Hf.
  rewrite list_lookup_insert_eq by assumption.
  assert (Hin : existsb (elem_is v) (added v a) = true).
  { rewrite (added_comma_free v a Hc), array_indexOf_absent.
    destruct (existsb (elem_is v) a) eqn:E; simpl; [exact E|].
    rewrite existsb_app. simpl. now rewrite String.eqb_refl, orb_true_r. }
  destruct (isDefault (added v a)) eqn:Hd; cbn [snd].
  - eapply tokens_intro; [apply lookup_insert_eq|]. cbn [store].
    rewrite list_lookup_middle by reflexivity.
    apply isDefault_inv in Hd. rewrite Hd in *. cbn [existsb elem_is] in Hin.
    rewrite orb_false_r in Hin. now apply String.eqb_eq in Hin as <-.
  - eapply tokens_intro; [exact Hf|]. cbn [store].
    rewrite list_insert_insert_eq.
    rewrite list_lookup_insert_eq by assumption. f_equal.
    rewrite (added_comma_free v _ Hc), array_indexOf_absent, Hin. reflexivity.
Qed.

Lemma addValue_comma_free_witness :
  let s := snd (addValue "hour" "5" (snd (new None))) in
  validateValue "hour" "7" = Ok tt /\ Js.indexOf "7" "," < 0
  /\ tokens s "hour" = Some [EStr "5"] /\ isDefault [EStr "5"] = false
  /\ tokens (snd (addValue "hour" "7" s)) "hour" = Some [EStr "5"; EStr "7"]
  /\ tokens (snd (addValue "hour" "7" (snd (addValue "hour" "7" s)))) "hour"
     = tokens (snd (addValue "hour" "7" s)) "hour".
Proof.
  assert (Hc : Js.indexOf "7" "," < 0) by (simpl; lia).
  split; [reflexivity|]. split; [exact Hc|]. split; [reflexivity|].
  split; [reflexivity|].
  exact (addValue_comma_free (snd (addValue "hour" "5" (snd (new None))))
           "hour" "7" [EStr "5"] eq_refl Hc eq_refl eq_refl).
Defined.

(** X10.  [addValue] on a field that is not at the default pushes onto the
    array the field refers to, in place: the caller's array that [set]
    stored, and every other field that refers to the same array, show the
    pushed tokens. *)
Theorem addValue_shared_array s f g v r a :
  expression s !! f = Some r -> expression s !! g = Some r ->
  store s !! r = Some a -> isDefault a = false ->
  validateValue f v = Ok tt ->
  let s' := snd (addValue f v s) in
  store s' !! r = Some (added v a)
  /\ expression s' = expression s
  /\ tokens s' g = Some (added v a).
Proof.
  intros Hf Hg Hr Ha Hv. cbv zeta.
  rewrite addValue_run, Hv, Hf, Hr, Ha. cbn [snd store expression].
  assert (H : <[r := added v a]> (store s) !! r = Some (added v a)).
  { apply list_lookup_insert_eq. eapply lookup_lt_Some; eauto. }
  split; [exact H|]. split; [reflexivity|].
  eapply tokens_intro; [exact Hg | exact H].
Qed.

Lemma addValue_shared_array_witness :
  let s0 := snd (new_array [EStr "5"] (snd (new None))) in
  let s := snd (set "minute" (VArray 1) (snd (set "hour" (VArray 1) s0))) in
  expression s !! "hour" = Some 1%nat /\ expression s !! "minute" = Some 1%nat
  /\ store s !! 1%nat = Some [EStr "5"] /\ isDefault [EStr "5"] = false
  /\ validateValue "hour" "7" = Ok tt
  /\ store (snd (addValue "hour" "7" s)) !! 1%nat = Some [EStr "5"; EStr "7"]
  /\ tokens (snd (addValue "hour" "7" s)) "minute" = Some [EStr "5"; EStr "7"].
Proof.
  do 5 (split; [reflexivity|]).
  destruct (addValue_shared_array
              (snd (set "minute" (VArray 1)
                 (snd (set "hour" (VArray 1)
                    (snd (new_array [EStr "5"] (snd (new None))))))))
              "hour" "minute" "7" 1%nat [EStr "5"]
              eq_refl eq_refl eq_refl eq_refl eq_refl) as (H1 & _ & H2).
  split; [exact H1 | exact H2].
Defined.

(** X11.  [removeValue] on a field that is not at the default returns
    [undefined] and leaves in the field the tokens that differ from the
    value, in their order, or [DEFAULT_INTERVAL] when none is left.  It
    builds a new array: no array of the store changes, so other fields,
    even one that referred to the same array, keep their tokens. *)
Theorem removeValue_filters s f v r a :
  default_intact s ->
  expression s !! f = Some r -> store s !! r = Some a -> isDefault a = false ->
  let s' := snd (removeValue f v s) in
  fst (removeValue f v s) = Ok None
  /\ tokens s' f = Some (match removed v a with [] => [EStr "*"] | l => l end)
  /\ extends s s'
  /\ (forall g, g <> f -> expression s' !! g = expression s !! g).
Proof.
  intros Hd Hf Hr Ha. cbv zeta. rewrite removeValue_run, Hf, Hr, Ha.
  cbn [fst snd]. split; [reflexivity|]. split; [|split].
  - destruct (removed v a) as [|x l] eqn:E; cbn [length Nat.eqb].
    + eapply tokens_intro; [apply lookup_insert_eq|]. cbn [store].
      apply lookup_app_l_Some. exact Hd.
    + eapply tokens_intro; [apply lookup_insert_eq|]. cbn [store].
      now apply list_lookup_middle.
  - apply extends_alloc.
  - intros g Hg. cbn [expression].
    destruct (length (removed v a) =? 0)%nat; now rewrite lookup_insert_ne.
Qed.

Lemma removeValue_filters_witness :
  let s0 := snd (new_array [EStr "5"; EStr "7"; EStr "5"] (snd (new None))) in
  let s := snd (set "minute" (VArray 1) (snd (set "hour" (VArray 1) s0))) in
  default_intact s
  /\ expression s !! "hour" = Some 1%nat
  /\ store s !! 1%nat = Some [EStr "5"; EStr "7"; EStr "5"]
  /\ isDefault [EStr "5"; EStr "7"; EStr "5"] = false
  /\ tokens (snd (removeValue "hour" "5" s)) "hour" = Some [EStr "7"]
  /\ tokens (snd (removeValue "hour" "5" s)) "minute"
     = Some [EStr "5"; EStr "7"; EStr "5"].
Proof.
  do 4 (split; [reflexivity|]).
  destruct (removeValue_filters
              (snd (set "minute" (VArray 1)
                 (snd (set "hour" (VArray 1)
                    (snd (new_array [EStr "5"; EStr "7"; EStr "5"] (snd (new None))))))))
              "hour" "5" 1%nat [EStr "5"; EStr "7"; EStr "5"]
              eq_refl eq_refl eq_refl eq_refl) as (_ & H1 & _ & _).
  split; [exact H1 | reflexivity].
Defined.

(** X12.  No operation removes or rewrites an element of an array: after
    any step every array of the store is still there and begins with the
    elements it had (only [addValue] changes an array, by pushing at its
    end). *)
Theorem arrays_only_grow o s r a :
  store s !! r = Some a ->
  exists a', store (exec o s) !! r = Some a' /\ a `prefix_of` a'.
Proof.
  intros Hr.
  assert (Hx : forall s', extends s s' ->
                 exists a', store s' !! r = Some a' /\ a `prefix_of` a').
  { intros s' H. exists a. split; [now apply H | reflexivity]. }
  destruct o as [l|f v|f v|f| | |f v|e]; cbn [exec].
  - exact (Hx _ (extends_alloc s (EStr <$> l) (expression s))).
  - rewrite addValue_run. destruct (validateValue f v) as [[]|x];
      [|apply Hx, extends_refl].
    destruct (expression s !! f) as [r0|]; [|apply Hx, extends_refl].
    destruct (store s !! r0) as [a0|] eqn:Hr0; [|apply Hx, extends_refl].
    destruct (isDefault a0); [apply Hx, extends_alloc|]. cbn [snd store].
    destruct (decide (r0 = r)) as [->|Hne].
    + rewrite Hr in Hr0. injection Hr0 as <-. exists (added v a). split.
      * apply list_lookup_insert_eq. eapply lookup_lt_Some; eauto.
      * unfold added. destruct (added_grows v (Js.split "," v) a) as [k ->].
        now apply prefix_app_r.
    + exists a. split; [now rewrite list_lookup_insert_ne | reflexivity].
  - rewrite removeValue_run. destruct (expression s !! f) as [r0|];
      [|apply Hx, extends_refl].
    destruct (store s !! r0) as [a0|]; [|apply Hx, extends_refl].
    destruct (isDefault a0); [apply Hx, extends_refl | apply Hx, extends_alloc].
  - rewrite get_state. apply Hx, extends_refl.
  - rewrite build_state. apply Hx, extends_refl.
  - apply Hx, extends_refl.
  - apply Hx, set_extends.
  - apply Hx, setAll_extends.
Qed.

Lemma arrays_only_grow_witness :
  let s := snd (addValue "hour" "5" (snd (new None))) in
  store s !! 1%nat = Some [EStr "5"]
  /\ exists a', store (exec (OAddValue "hour" "7") s) !! 1%nat = Some a'
                /\ [EStr "5"] `prefix_of` a'.
Proof.
  split; [reflexivity|].
  exact (arrays_only_grow (OAddValue "hour" "7")
           (snd (addValue "hour" "5" (snd (new None)))) 1%nat [EStr "5"] eq_refl).
Defined.

(** X13.  The shared [DEFAULT_INTERVAL] array, to which every field at the
    default refers, is never changed: after a successful construction and
    any sequence of operations it still holds the wildcard alone. *)
Theorem default_interval_intact s :
  reachable any_op s -> store s !! DEFAULT_INTERVAL = Some [EStr "*"].
Proof. intros [H _]%reachable_nonempty. exact H. Qed.

Lemma default_interval_intact_witness :
  let s := exec (OAddValue "hour" "6") (exec (OAddValue "hour" "5") (snd (new None))) in
  reachable any_op s /\ store s !! DEFAULT_INTERVAL = Some [EStr "*"].
Proof.
  assert (H : reachable any_op
    (exec (OAddValue "hour" "6") (exec (OAddValue "hour" "5") (snd (new None))))).
  { repeat (apply reach_step; [|exact I]). now apply (reach_new _ None). }
  split; [exact H | exact (default_interval_intact _ H)].
Defined.



End ArrayExtras.

Section SetAllExtras.
Import CronValidator CronBuilder.







End SetAllExtras.

Section RoundTrip.
Import CronValidator CronBuilder.

(** X16.  Adding a value to a field at the default and removing the same
    value brings the field back to the default: after [addValue(f, v)]
    and [removeValue(f, v)] the field holds the wildcard alone again
    (whether [v] has commas or not, and also when [v] is ["*"]). *)
Theorem addValue_then_removeValue s f v :
  default_intact s -> tokens s f = Some [EStr "*"] ->
  validateValue f v = Ok tt ->
  let s1 := snd (addValue f v s) in
  tokens s1 f = Some [EStr v]
  /\ tokens (snd (removeValue f v s1)) f = Some [EStr "*"].
Proof.
  intros Hd (r & Hf & Hr)%tokens_Some Hv. cbv zeta.
  rewrite addValue_run, Hv, Hf, Hr. cbn [isDefault snd].
  change (isDefault [EStr "*"]) with true. cbn [snd].
  set (s1 := State (store s ++ [[EStr v]]) (<[f := length (store s)]> (expression s))).
  assert (Hf1 : expression s1 !! f = Some (length (store s)))
    by apply lookup_insert_eq.
  assert (Hr1 : store s1 !! length (store s) = Some [EStr v])
    by now apply list_lookup_middle.
  split; [eapply tokens_intro; eauto|].
  rewrite removeValue_run, Hf1, Hr1.
  destruct (isDefault [EStr v]) eqn:Hdef.
  - apply isDefault_inv in Hdef. rewrite <- Hdef. cbn [snd].
    eapply tokens_intro; eauto.
  - unfold removed. cbn [List.filter elem_is]. rewrite String.eqb_refl.
    cbn [negb length Nat.eqb snd].
    eapply tokens_intro; [apply lookup_insert_eq|]. cbn [store].
    subst s1. cbn [store]. do 2 apply lookup_app_l_Some. exact Hd.
Qed.

Lemma addValue_then_removeValue_witness :
  default_intact (snd (new None))
  /\ tokens (snd (new None)) "month" = Some [EStr "*"]
  /\ validateValue "month" "1,2" = Ok tt
  /\ tokens (snd (addValue "month" "1,2" (snd (new None)))) "month" = Some [EStr "1,2"]
  /\ tokens (snd (removeValue "month" "1,2"
                    (snd (addValue "month" "1,2" (snd (new None)))))) "month"
     = Some [EStr "*"].
Proof.
  do 3 (split; [reflexivity|]).
  exact (addValue_then_removeValue (snd (new None)) "month" "1,2"
           eq_refl eq_refl eq_refl).
Defined.

End RoundTrip.
